(** * cc-utils: the malware-scan pipeline of [clamav/scan.py]

    A shallow embedding of the result aggregator, the layer enumerator, the
    blob scan strategy and the image scan orchestrator, with the properties
    the specification states about them. *)

From Stdlib Require Import ZArith List Ascii String Bool Lia.
From Stdlib Require Import Floats.
From Stdlib Require Import Permutation Sorted.
Import ListNotations.

Local Open Scope string_scope.
Local Open Scope Z_scope.
Local Open Scope list_scope.

(** ** Python exceptions raised along the pipeline *)

Inductive exn : Type :=
| ValueError (msg : string)
| NotImplementedError
| IndexError
| TarError.

(** The two [ValueError]s of [aggregate_scan_result] differ by their message;
    the specification calls them [EmptyResultError] and [InvariantViolation]. *)
Definition EmptyResultError : exn :=
  ValueError "results-iterator did not contain any elements".
Definition InvariantViolation : exn :=
  ValueError "state cannot be unknown if scan succeeded".

(** Python floats are IEEE 754 binary64 numbers; [scan.py] only ever adds them. *)
Definition pyfloat : Type := PrimFloat.float.

(** ** Byte streams

    What [clamav_client.scan] is handed is read lazily, while the call runs:
    the reader that [tf.extractfile] gives for an archive member, or the
    chunks of a blob. A stream is [whole] when reading it to its end gives
    its bytes, and [cut] when the file behind the reader ends before the
    data does: reading then gives the bytes that are there and raises
    [tarfile.ReadError], a [TarError]. *)

Inductive stream : Type :=
| whole (data : list Byte.byte)
| cut (data : list Byte.byte).

(** The bytes that a stream gives before it ends. *)
Definition bytes_of (data : stream) : list Byte.byte :=
  match data with
  | whole bytes => bytes
  | cut bytes => bytes
  end.

(** ** [clamav.client]: what the scan daemon's client hands back *)

Module client.

(** Modelled from the spec: [clamav/client.py] declares the enumeration
    [ScanStatus], whether the remote scan completed. *)
Inductive ScanStatus : Type := SCAN_SUCCEEDED | SCAN_FAILED.

(** Modelled from the spec: [clamav/client.py] declares the enumeration
    [MalwareStatus], the verdict of a scan. *)
Inductive MalwareStatus : Type := OK | UNKNOWN | FOUND_MALWARE.

(** Modelled from the spec: [clamav/client.py] declares [Meta]; the fields
    are the three the aggregator reads. *)
Record Meta : Type := {
  scanned_octets : Z;
  scan_duration_seconds : pyfloat;
  receive_duration_seconds : pyfloat;
}.

(** Modelled from the spec: [clamav/client.py] declares [ScanResult]. The
    aggregator reads [meta] only on results whose status is not
    [SCAN_FAILED], the results that have one; what the field holds on a
    failed result is never looked at. *)
Record ScanResult : Type := {
  name : string;
  status : ScanStatus;
  malware_status : MalwareStatus;
  details : string;
  meta : Meta;
}.

Definition is_failed (r : ScanResult) : bool :=
  match status r with SCAN_FAILED => true | SCAN_SUCCEEDED => false end.

Definition is_succeeded (r : ScanResult) : bool := negb (is_failed r).

Definition MalwareStatus_eqb (a b : MalwareStatus) : bool :=
  match a, b with
  | OK, OK | UNKNOWN, UNKNOWN | FOUND_MALWARE, FOUND_MALWARE => true
  | _, _ => false
  end.

Definition has_malware (r : ScanResult) : bool :=
  MalwareStatus_eqb (malware_status r) FOUND_MALWARE.

(** A successful result that reports [UNKNOWN]: the combination the data
    model rules out. *)
Definition succeeded_unknown (r : ScanResult) : bool :=
  is_succeeded r && MalwareStatus_eqb (malware_status r) UNKNOWN.

(** The invariant of the data model: a failed scan reports [UNKNOWN], a
    successful one never does. *)
Definition data_model_invariant (r : ScanResult) : bool :=
  match status r with
  | SCAN_FAILED => MalwareStatus_eqb (malware_status r) UNKNOWN
  | SCAN_SUCCEEDED => negb (MalwareStatus_eqb (malware_status r) UNKNOWN)
  end.

(** Modelled from the spec: [clamav/client.py] declares [ClamAVClient];
    [scan(data, name)] submits a byte stream under a display name and gives
    one [ScanResult]: the field [scan] is the answer for the bytes of a
    stream that was read to its end. *)
Record ClamAVClient : Type := {
  scan : list Byte.byte -> string -> ScanResult;
}.

(** Modelled from the spec: to submit a stream the client reads it to its
    end, and it does not catch what the reader raises: on a stream that is
    cut short the call ends with the reader's [TarError] and gives no
    result. *)
Definition scan_stream (clamav_client : ClamAVClient) (data : stream)
    (name : string) : exn + ScanResult :=
  match data with
  | whole bytes => inr (scan clamav_client bytes name)
  | cut _ => inl TarError
  end.

End client.

(** ** [gci.componentmodel]: the resource a scan is reported for *)

Module cm.

Inductive Access : Type :=
| OciAccess (imageReference : string)
| S3Access (bucketName objectKey : string)
| OtherAccess.

Record Resource : Type := { access : Access }.

End cm.

(** ** Generators

    Every function of the pipeline is a Python generator. A generator that is
    drained to its end is described by what it yielded, the scan calls it
    issued on the way, and how it ended. *)

Inductive ending : Type :=
| Returned
| Raised (e : exn).

(** One call of [clamav_client.scan(data=..., name=...)]. *)
Record ScanCall : Type := {
  call_data : list Byte.byte;
  call_name : string;
}.

Record gen (A : Type) : Type := mk_gen {
  yielded : list A;
  scan_calls : list ScanCall;
  gen_end : ending;
}.

Arguments mk_gen {A} _ _ _.
Arguments yielded {A} _.
Arguments scan_calls {A} _.
Arguments gen_end {A} _.

(** [return], falling off the end of the body, or [continue] as the last
    statement of a loop turn. *)
Definition gen_done {A} : gen A := mk_gen [] [] Returned.

Definition gen_raise {A} (e : exn) : gen A := mk_gen [] [] (Raised e).

(** [g] and then, unless [g] raised, [k]. *)
Definition gen_seq {A} (g k : gen A) : gen A :=
  match gen_end g with
  | Returned =>
      mk_gen (yielded g ++ yielded k) (scan_calls g ++ scan_calls k) (gen_end k)
  | Raised _ => g
  end.

Notation "g ;; k" := (gen_seq g k) (at level 61, right associativity).

(** [yield from xs] for a sequence [xs]. *)
Definition yield_from_list {A} (xs : list A) : gen A := mk_gen xs [] Returned.

(** [for x in xs: body(x)]. *)
Fixpoint gen_for {A B} (xs : list A) (body : A -> gen B) : gen B :=
  match xs with
  | [] => gen_done
  | x :: rest => body x ;; gen_for rest body
  end.

(** [try: g except tarfile.TarError: handler]: what [g] yielded before the
    error stays yielded. *)
Definition try_except_TarError {A} (g handler : gen A) : gen A :=
  match gen_end g with
  | Raised TarError =>
      mk_gen (yielded g) (scan_calls g) Returned ;; handler
  | _ => g
  end.

(** A generator whose body may recurse without bound is run with fuel:
    [None] is fuel exhausted. [g] and then, unless [g] raised, [k]; [k] is
    not started when [g] raised. *)
Definition fuel_seq {A} (g : option (gen A)) (k : unit -> option (gen A))
  : option (gen A) :=
  match g with
  | None => None
  | Some g' =>
      match gen_end g' with
      | Raised _ => Some g'
      | Returned =>
          match k tt with
          | None => None
          | Some k' => Some (g' ;; k')
          end
      end
  end.

Fixpoint fuel_for {A B} (xs : list A) (body : A -> option (gen B))
  : option (gen B) :=
  match xs with
  | [] => Some gen_done
  | x :: rest => fuel_seq (body x) (fun _ => fuel_for rest body)
  end.

(** ** [oci.model] and [oci.client]: the registry *)

Module oci.

(** Modelled from the spec: [oci/model.py] declares [OciBlobRef], the content
    digest that identifies a layer blob. *)
Record OciBlobRef : Type := { digest : string }.

(** Modelled from the spec: an entry of a manifest list, [manifest.digest]
    in [_iter_layers]. *)
Record OciImageManifestListEntry : Type := { manifest_digest : string }.

(** Modelled from the spec: [oci/model.py] declares the manifest classes.
    What [oci_client.manifest] may hand back: the two classes that
    [_iter_layers] tests with [isinstance], and anything else. *)
Inductive Manifest : Type :=
| OciImageManifest (layers : list OciBlobRef)
| OciImageManifestList (manifests : list OciImageManifestListEntry)
| OtherManifest.

(** Modelled from the spec: [oci/client.py] declares [Client], the registry
    client: [manifest(image_reference, accept)] with [accept] fixed to
    [prefer_multiarch], and [blob(image_reference, digest)], whose content is
    read in chunks. *)
Record Client : Type := {
  manifest : string -> Manifest;
  blob : string -> string -> list Byte.byte;
}.

End oci.

(** ** [tarfile] of the Python standard library *)

Module tarfile.

Inductive member_type : Type :=
| REGTYPE | AREGTYPE | LNKTYPE | SYMTYPE | CHRTYPE | BLKTYPE
| DIRTYPE | FIFOTYPE | CONTTYPE | GNUTYPE_SPARSE.

(** A member as the iteration over the archive gives it: the header fields
    [name] and [type], the bytes of the member's data that the archive file
    holds, and whether the file ends before that data does (an archive cut
    inside a member; it is then the last member that is listed). *)
Record TarInfo : Type := {
  name : string;
  type : member_type;
  content : list Byte.byte;
  cut_short : bool;
}.

(** [TarInfo.isfile]: the member's type is one of [REGULAR_TYPES]. *)
Definition isfile (tar_info : TarInfo) : bool :=
  match type tar_info with
  | REGTYPE | AREGTYPE | CONTTYPE | GNUTYPE_SPARSE => true
  | _ => false
  end.

(** A regular file whose data cannot be read to its end. *)
Definition unreadable (tar_info : TarInfo) : bool :=
  isfile tar_info && cut_short tar_info.

(** An opened archive: the members that iterating over it gives, and whether
    the iteration then raises [tarfile.ReadError] on its way to the next
    header, which it cannot read, although the data of every member listed
    is there. *)
Record TarFile : Type := {
  members : list TarInfo;
  bad_header : bool;
}.

(** [tf.extractfile(member)] of a regular file: a reader of the member's
    data. Nothing is read yet; the data is read by whoever reads the
    reader. *)
Definition extractfile (tf : TarFile) (member : TarInfo) : stream :=
  if cut_short member then cut (content member)
  else whole (content member).

(** A damaged archive: the iteration over it does not come to the end but
    stops with [tarfile.ReadError], a [TarError], because the next header
    cannot be read or because the file ends inside the data of a regular
    file. *)
Definition damaged (tf : TarFile) : bool :=
  bad_header tf || existsb unreadable (members tf).

End tarfile.

(** ** [clamav.scan] *)

Module scan.

(** *** The result aggregator *)

Record AggregatedScanResult : Type := {
  resource_url : string;
  name : option string;
  malware_status : client.MalwareStatus;
  findings : list client.ScanResult;
  scan_count : Z;
  scanned_octets : Z;
  scan_duration_seconds : pyfloat;
  upload_duration_seconds : pyfloat;
}.

(** The local variables of [aggregate_scan_result] that the loop updates. *)
Record locals : Type := {
  l_count : Z;
  l_succeeded : bool;
  l_scanned_octets : Z;
  l_scan_duration_seconds : pyfloat;
  l_upload_duration_seconds : pyfloat;
  l_findings : list client.ScanResult;
}.

(** The durations start at the integer [0]; Python turns it into [0.0] when
    the first float is added. *)
Definition initial_locals : locals :=
  {| l_count := 0;
     l_succeeded := true;
     l_scanned_octets := 0;
     l_scan_duration_seconds := 0%float;
     l_upload_duration_seconds := 0%float;
     l_findings := [] |}.

(** One turn of [for result in results]: [inl] is a raised exception. The
    last [else] of the source, for a [malware_status] outside the
    enumeration, has no counterpart: [MalwareStatus] has three values. *)
Definition loop_body (result : client.ScanResult) (v : locals)
  : exn + locals :=
  let count := l_count v + 1 in
  match client.status result with
  | client.SCAN_FAILED =>
      inr {| l_count := count;
             l_succeeded := false;
             l_scanned_octets := l_scanned_octets v;
             l_scan_duration_seconds := l_scan_duration_seconds v;
             l_upload_duration_seconds := l_upload_duration_seconds v;
             l_findings := l_findings v |}
  | client.SCAN_SUCCEEDED =>
      let m := client.meta result in
      let octets := l_scanned_octets v + client.scanned_octets m in
      let scan_d :=
        PrimFloat.add (l_scan_duration_seconds v)
                      (client.scan_duration_seconds m) in
      let upload_d :=
        PrimFloat.add (l_upload_duration_seconds v)
                      (client.receive_duration_seconds m) in
      let next (fs : list client.ScanResult) :=
        {| l_count := count;
           l_succeeded := l_succeeded v;
           l_scanned_octets := octets;
           l_scan_duration_seconds := scan_d;
           l_upload_duration_seconds := upload_d;
           l_findings := fs |} in
      match client.malware_status result with
      | client.OK => inr (next (l_findings v))
      | client.UNKNOWN => inl InvariantViolation
      | client.FOUND_MALWARE => inr (next (l_findings v ++ [result]))
      end
  end.

Fixpoint for_results (results : list client.ScanResult) (v : locals)
  : exn + locals :=
  match results with
  | [] => inr v
  | result :: rest =>
      match loop_body result v with
      | inl e => inl e
      | inr v' => for_results rest v'
      end
  end.

Definition resource_url_of (resource : cm.Resource) : string :=
  match cm.access resource with
  | cm.OciAccess imageReference => imageReference
  | cm.S3Access bucketName objectKey =>
      ("s3://" ++ bucketName ++ "/" ++ objectKey)%string
  | cm.OtherAccess => "<unknown>"
  end.

Definition aggregate_scan_result (resource : cm.Resource)
    (results : list client.ScanResult) (name : option string)
  : exn + AggregatedScanResult :=
  match for_results results initial_locals with
  | inl e => inl e
  | inr v =>
      if l_count v =? 0 then inl EmptyResultError
      else
        let malware_status :=
          if l_succeeded v then
            if (Z.of_nat (List.length (l_findings v)) <? 1)
            then client.OK else client.FOUND_MALWARE
          else client.UNKNOWN in
        inr {| resource_url := resource_url_of resource;
               name := name;
               malware_status := malware_status;
               findings := l_findings v;
               scan_count := l_count v;
               scanned_octets := l_scanned_octets v;
               scan_duration_seconds := l_scan_duration_seconds v;
               upload_duration_seconds := l_upload_duration_seconds v |}
  end.

(** *** Layers, blobs and images *)

(** [scan_result = clamav_client.scan(data=data, name=name)] followed by
    [yield scan_result]; a call that raises yields nothing. *)
Definition scan_and_yield (clamav_client : client.ClamAVClient)
    (data : stream) (name : string) : gen client.ScanResult :=
  let call := {| call_data := bytes_of data; call_name := name |} in
  match client.scan_stream clamav_client data name with
  | inr scan_result => mk_gen [scan_result] [call] Returned
  | inl e => mk_gen [] [call] (Raised e)
  end.

Section Pipeline.

(** [OciImageReference.to_image_ref(image_reference).ref_without_tag], of
    [oci/model.py]. *)
Variable ref_without_tag : string -> string.

(** [tarfile.open(fileobj=..., mode='r')] on the given bytes: [None] when it
    raises [tarfile.ReadError], a [TarError]. Blobs on which it raises
    anything else (a compressed stream that ends early gives [EOFError]) are
    not among the inputs described here. *)
Variable tarfile_open : list Byte.byte -> option tarfile.TarFile.

(** The source has no protection against manifest lists that refer to each
    other, hence the fuel. *)
Fixpoint _iter_layers (fuel : nat) (image_reference : string)
    (oci_client : oci.Client) : option (gen oci.OciBlobRef) :=
  match fuel with
  | O => None
  | S fuel' =>
      match oci.manifest oci_client image_reference with
      | oci.OciImageManifest layers => Some (yield_from_list layers)
      | oci.OtherManifest => Some (gen_raise NotImplementedError)
      | oci.OciImageManifestList manifests =>
          fuel_for manifests (fun manifest =>
            let sub_manifest_img_ref :=
              (ref_without_tag image_reference ++ "@"
                 ++ oci.manifest_digest manifest)%string in
            _iter_layers fuel' sub_manifest_img_ref oci_client)
      end
  end.

(** The blob is copied to a temporary file, which [tarfile] then reads. A
    [TarError] that the scan call raises while it reads a member leaves the
    loop like one that the iteration raises. *)
Definition scan_oci_blob_filewise (blob_reference : oci.OciBlobRef)
    (image_reference : string) (oci_client : oci.Client)
    (clamav_client : client.ClamAVClient) : gen client.ScanResult :=
  let blob :=
    oci.blob oci_client image_reference (oci.digest blob_reference) in
  match tarfile_open blob with
  | None => gen_raise TarError
  | Some tf =>
      gen_for (tarfile.members tf) (fun tar_info =>
        if negb (tarfile.isfile tar_info) then gen_done
        else
          let data := tarfile.extractfile tf tar_info in
          scan_and_yield clamav_client data
            (image_reference ++ ":" ++ oci.digest blob_reference ++ ":"
               ++ tarfile.name tar_info)%string) ;;
      (if tarfile.damaged tf then gen_raise TarError else gen_done)
  end.

(** The blob is handed over as the chunks of [blob.iter_content], which
    [tarfile] has no part in. *)
Definition scan_oci_blob_layerwise (blob_reference : oci.OciBlobRef)
    (image_reference : string) (oci_client : oci.Client)
    (clamav_client : client.ClamAVClient) : gen client.ScanResult :=
  let blob :=
    oci.blob oci_client image_reference (oci.digest blob_reference) in
  scan_and_yield clamav_client (whole blob)
    (image_reference ++ ":" ++ oci.digest blob_reference)%string.

Definition scan_oci_blob (blob_reference : oci.OciBlobRef)
    (image_reference : string) (oci_client : oci.Client)
    (clamav_client : client.ClamAVClient) : gen client.ScanResult :=
  try_except_TarError
    (scan_oci_blob_filewise blob_reference image_reference
       oci_client clamav_client)
    (scan_oci_blob_layerwise blob_reference image_reference
       oci_client clamav_client).

(** [ThreadPoolExecutor.map(fn, iterable)]: the results of [fn] in the order
    of submission. [scan_func] is a generator function, so each result is a
    generator that has not started; its body runs when the caller draws from
    it. *)
Definition executor_map {A B} (fn : A -> B) (iterable : list A) : list B :=
  map fn iterable.

(** [tuple(_iter_layers(...))] drains the enumeration before any blob is
    scanned; an exception it raises ends the image scan. *)
Definition scan_oci_image (fuel : nat) (image_reference : string)
    (oci_client : oci.Client) (clamav_client : client.ClamAVClient)
  : option (gen client.ScanResult) :=
  match _iter_layers fuel image_reference oci_client with
  | None => None
  | Some enumerated =>
      match gen_end enumerated with
      | Raised e => Some (gen_raise e)
      | Returned =>
          let layer_blobs := yielded enumerated in
          let scan_func := fun blob_reference =>
            scan_oci_blob blob_reference image_reference
              oci_client clamav_client in
          if (1 <? Z.of_nat (List.length layer_blobs)) then
            Some (gen_for (executor_map scan_func layer_blobs)
                    (fun res => res))
          else
            match nth_error layer_blobs 0 with
            | None => Some (gen_raise IndexError)
            | Some first => Some (scan_func first)
            end
      end
  end.

(** The reference the multi-layer branch is compared with: the layers
    scanned one after the other, in the order given. *)
Fixpoint scan_layers_sequentially (layer_blobs : list oci.OciBlobRef)
    (image_reference : string) (oci_client : oci.Client)
    (clamav_client : client.ClamAVClient) : gen client.ScanResult :=
  match layer_blobs with
  | [] => gen_done
  | blob_reference :: rest =>
      scan_oci_blob blob_reference image_reference oci_client clamav_client ;;
      scan_layers_sequentially rest image_reference oci_client clamav_client
  end.

End Pipeline.

End scan.

(** ** Vocabulary of the statements *)

(** The [meta] records of the results whose status is [SCAN_SUCCEEDED], in
    input order. *)
Definition successful_metas (results : list client.ScanResult)
  : list client.Meta :=
  map client.meta (filter client.is_succeeded results).

(** Sums in input order, from zero, as the loop accumulates them. *)
Definition sum_int (xs : list Z) : Z := fold_left Z.add xs 0.
Definition sum_float (xs : list pyfloat) : pyfloat :=
  fold_left PrimFloat.add xs 0%float.

(** A successful result that reports malware: what the loop appends to
    [findings]. *)
Definition is_finding (r : client.ScanResult) : bool :=
  client.is_succeeded r && client.has_malware r.

(** The locals after the loop ran over [results] from [v] without raising. *)
Definition locals_after (results : list client.ScanResult) (v : scan.locals)
  : scan.locals :=
  {| scan.l_count := scan.l_count v + Z.of_nat (List.length results);
     scan.l_succeeded :=
       scan.l_succeeded v && negb (existsb client.is_failed results);
     scan.l_scanned_octets :=
       fold_left Z.add
         (map client.scanned_octets (successful_metas results))
         (scan.l_scanned_octets v);
     scan.l_scan_duration_seconds :=
       fold_left PrimFloat.add
         (map client.scan_duration_seconds (successful_metas results))
         (scan.l_scan_duration_seconds v);
     scan.l_upload_duration_seconds :=
       fold_left PrimFloat.add
         (map client.receive_duration_seconds (successful_metas results))
         (scan.l_upload_duration_seconds v);
     scan.l_findings := scan.l_findings v ++ filter is_finding results |}.

(** What [aggregate_scan_result] returns when the loop comes to its end. *)
Definition aggregated (resource : cm.Resource)
    (results : list client.ScanResult) (name : option string)
  : scan.AggregatedScanResult :=
  {| scan.resource_url := scan.resource_url_of resource;
     scan.name := name;
     scan.malware_status :=
       if existsb client.is_failed results then client.UNKNOWN
       else if existsb is_finding results
            then client.FOUND_MALWARE else client.OK;
     scan.findings := filter is_finding results;
     scan.scan_count := Z.of_nat (List.length results);
     scan.scanned_octets :=
       sum_int (map client.scanned_octets (successful_metas results));
     scan.scan_duration_seconds :=
       sum_float
         (map client.scan_duration_seconds (successful_metas results));
     scan.upload_duration_seconds :=
       sum_float
         (map client.receive_duration_seconds (successful_metas results)) |}.

(** The reference [_iter_layers] derives for a listed sub-manifest. *)
Definition sub_manifest_img_ref (ref_without_tag : string -> string)
    (image_reference : string) (manifest : oci.OciImageManifestListEntry)
  : string :=
  (ref_without_tag image_reference ++ "@"
     ++ oci.manifest_digest manifest)%string.

(** The name a file of a layer is scanned under, and the name a whole layer
    is scanned under. *)
Definition filewise_name (image_reference : string)
    (blob_reference : oci.OciBlobRef) (tar_info : tarfile.TarInfo) : string :=
  (image_reference ++ ":" ++ oci.digest blob_reference ++ ":"
     ++ tarfile.name tar_info)%string.


(** The scan call for a regular file of a layer, and for a whole layer. *)
Definition filewise_call (image_reference : string)
    (blob_reference : oci.OciBlobRef) (tar_info : tarfile.TarInfo)
  : ScanCall :=
  {| call_data := tarfile.content tar_info;
     call_name := filewise_name image_reference blob_reference tar_info |}.


(** What the scan daemon's client answers to a call. *)
Definition answer (clamav_client : client.ClamAVClient) (c : ScanCall)
  : client.ScanResult :=
  client.scan clamav_client (call_data c) (call_name c).

(** ** Sample inputs *)

Definition sample_meta (octets : Z) : client.Meta :=
  {| client.scanned_octets := octets;
     client.scan_duration_seconds := 0.5%float;
     client.receive_duration_seconds := 0.25%float |}.

Definition clean_result (name : string) : client.ScanResult :=
  {| client.name := name;
     client.status := client.SCAN_SUCCEEDED;
     client.malware_status := client.OK;
     client.details := "no threat found";
     client.meta := sample_meta 100 |}.

Definition infected_result (name : string) : client.ScanResult :=
  {| client.name := name;
     client.status := client.SCAN_SUCCEEDED;
     client.malware_status := client.FOUND_MALWARE;
     client.details := "Eicar-Signature FOUND";
     client.meta := sample_meta 68 |}.

(** A failed scan; its [meta] is a leftover that must not be counted. *)
Definition failed_result (name : string) : client.ScanResult :=
  {| client.name := name;
     client.status := client.SCAN_FAILED;
     client.malware_status := client.UNKNOWN;
     client.details := "scan failed";
     client.meta := sample_meta 7 |}.

(** A result that breaks the data model: the scan succeeded, the verdict is
    [UNKNOWN]. *)
Definition inconsistent_result (name : string) : client.ScanResult :=
  {| client.name := name;
     client.status := client.SCAN_SUCCEEDED;
     client.malware_status := client.UNKNOWN;
     client.details := "";
     client.meta := sample_meta 1 |}.

Definition sample_resource : cm.Resource :=
  {| cm.access := cm.OciAccess "registry.example/app:1.0" |}.

(** A scan daemon that finds nothing and reports the size of what it read. *)
Definition quiet_clamav : client.ClamAVClient :=
  {| client.scan := fun data name =>
       {| client.name := name;
          client.status := client.SCAN_SUCCEEDED;
          client.malware_status := client.OK;
          client.details := "no threat found";
          client.meta := sample_meta (Z.of_nat (List.length data)) |} |}.

(** An archive with three regular files and one directory. *)
Definition sample_archive : tarfile.TarFile :=
  {| tarfile.members :=
       [ {| tarfile.name := "etc";
            tarfile.type := tarfile.DIRTYPE;
            tarfile.content := [];
            tarfile.cut_short := false |};
         {| tarfile.name := "etc/passwd";
            tarfile.type := tarfile.REGTYPE;
            tarfile.content := list_byte_of_string "root";
            tarfile.cut_short := false |};
         {| tarfile.name := "bin/sh";
            tarfile.type := tarfile.REGTYPE;
            tarfile.content := list_byte_of_string "ELF";
            tarfile.cut_short := false |};
         {| tarfile.name := "README";
            tarfile.type := tarfile.AREGTYPE;
            tarfile.content := list_byte_of_string "hello";
            tarfile.cut_short := false |} ];
     tarfile.bad_header := false |}.

(** A [tarfile.open] that knows one archive and refuses everything else. *)
Definition sample_tarfile_open (data : list Byte.byte)
  : option tarfile.TarFile :=
  if String.eqb (string_of_list_byte data) "sample-archive"
  then Some sample_archive else None.

(** A [ref_without_tag] for references without a port: what comes before
    the first [:] or [@]. *)
Fixpoint sample_ref_without_tag (image_reference : string) : string :=
  match image_reference with
  | EmptyString => EmptyString
  | String c rest =>
      if (Ascii.eqb c ":"%char || Ascii.eqb c "@"%char)%bool then EmptyString
      else String c (sample_ref_without_tag rest)
  end.

Definition layer (digest : string) : oci.OciBlobRef :=
  {| oci.digest := digest |}.

(** A registry with a two-platform image of two layers each, an image with
    one layer, and an image without layers; the blob [sha256:a1] is an
    archive, every other blob is not. *)
Definition sample_registry : oci.Client :=
  {| oci.manifest := fun image_reference =>
       if String.eqb image_reference "registry.example/app:1.0" then
         oci.OciImageManifestList
           [ {| oci.manifest_digest := "sha256:amd64" |};
             {| oci.manifest_digest := "sha256:arm64" |} ]
       else if String.eqb image_reference
                 "registry.example/app@sha256:amd64" then
         oci.OciImageManifest [layer "sha256:a1"; layer "sha256:a2"]
       else if String.eqb image_reference
                 "registry.example/app@sha256:arm64" then
         oci.OciImageManifest [layer "sha256:b1"; layer "sha256:b2"]
       else if String.eqb image_reference "registry.example/one:1.0" then
         oci.OciImageManifest [layer "sha256:a1"]
       else if String.eqb image_reference "registry.example/empty:1.0" then
         oci.OciImageManifest []
       else oci.OtherManifest;
     oci.blob := fun image_reference digest =>
       if String.eqb digest "sha256:a1"
       then list_byte_of_string "sample-archive"
       else list_byte_of_string "not an archive" |}.

(** ** Further code of [clamav/scan.py] and [clamav/report.py] *)

(** The order in which verdicts override each other when results are put
    together: [UNKNOWN] over [FOUND_MALWARE] over [OK]. *)
Definition worst (a b : client.MalwareStatus) : client.MalwareStatus :=
  match a, b with
  | client.UNKNOWN, _ | _, client.UNKNOWN => client.UNKNOWN
  | client.FOUND_MALWARE, _ | _, client.FOUND_MALWARE => client.FOUND_MALWARE
  | client.OK, client.OK => client.OK
  end.

Module scan_more.

(** [scan_tarfile(clamav_client, tf)]: the members of an archive that is
    already open, each regular file scanned under its own name. *)
Definition scan_tarfile (clamav_client : client.ClamAVClient)
    (tf : tarfile.TarFile) : gen client.ScanResult :=
  gen_for (tarfile.members tf) (fun tar_info =>
    if negb (tarfile.isfile tar_info) then gen_done
    else
      let data := tarfile.extractfile tf tar_info in
      scan.scan_and_yield clamav_client data (tarfile.name tar_info)) ;;
  (if tarfile.damaged tf then gen_raise TarError else gen_done).

Definition newline : string := String "010"%char EmptyString.

End scan_more.

(** [clamav/report.py] *)

Module report.

(** [ClamAV_ResourceScanResult], as far as [as_table] reads it: the names of
    the component and of the artifact, and the aggregated scan result. *)
Record ClamAV_ResourceScanResult : Type := {
  component_name : string;
  artifact_name : string;
  scan_result : scan.AggregatedScanResult;
}.

(** [row_from_result], local to [as_table]: resource, status and details. *)
Definition row_from_result (scan_result : ClamAV_ResourceScanResult)
  : string * client.MalwareStatus * string :=
  let resource :=
    (component_name scan_result ++ "/" ++ artifact_name scan_result)%string in
  let res := report.scan_result scan_result in
  let status := scan.malware_status res in
  let details :=
    match status with
    | client.OK => "no malware found"
    | client.UNKNOWN => "failed to scan"
    | client.FOUND_MALWARE =>
        String.concat scan_more.newline
          (map (fun finding =>
                  (client.name finding ++ ": " ++ client.details finding)%string)
               (scan.findings res))
    end in
  (resource, status, details).

Definition headers : list string := ["resource"; "status"; "details"].

(** [as_table(scan_results, tablefmt)]; [tabulate] is the function of that
    name of the package [tabulate]. *)
Definition as_table {Table : Type}
    (tabulate : list (string * client.MalwareStatus * string) ->
                list string -> string -> Table)
    (scan_results : list ClamAV_ResourceScanResult) (tablefmt : string)
  : Table :=
  tabulate (map row_from_result scan_results) headers tablefmt.

End report.

(** A scan call under a name with something put in front. *)
Definition prefixed (prefix : string) (c : ScanCall) : ScanCall :=
  {| call_data := call_data c; call_name := (prefix ++ call_name c)%string |}.

(** What [as_table] shows of a finding. *)
Definition finding_line (finding : client.ScanResult) : string :=
  (client.name finding ++ ": " ++ client.details finding)%string.

(** ** [ccc/github.py]: choosing the GitHub configuration *)

(** Python's [sorted(iterable, key=...)]: ascending by key, and stable. *)
Fixpoint insert_sorted {A} (key : A -> nat) (x : A) (l : list A) : list A :=
  match l with
  | [] => [x]
  | y :: rest =>
      if (key x <=? key y)%nat then x :: l
      else y :: insert_sorted key x rest
  end.

Fixpoint sorted {A} (key : A -> nat) (l : list A) : list A :=
  match l with
  | [] => []
  | x :: rest => insert_sorted key x (sorted key rest)
  end.

(** [l[-1]]: the last element, [None] for [IndexError]. *)
Fixpoint last_element {A} (l : list A) : option A :=
  match l with
  | [] => None
  | [x] => Some x
  | _ :: rest => last_element rest
  end.

Module ccc_github.

Inductive error : Type :=
| ConfigElementNotFoundError (repo_url : string)
| RuntimeError (host_name : string)
| IndexError.

(** [model.github.GithubConfig], of [model/github.py], as far as the two
    functions read it; the two [matches_] methods are taken as they are. *)
Record GithubConfig : Type := {
  name : string;
  purpose_labels : list string;
  repo_urls : list string;
  matches_repo_url : string -> bool;
  matches_hostname : string -> bool;
}.

(** [require_labels]: a tuple of labels, or a single [str]. *)
Inductive labels : Type :=
| LabelStr (s : string)
| LabelTuple (t : list string).

(** Iterating over a [str] gives its characters, as [tuple(s)] and [set(s)]
    do. *)
Definition characters (s : string) : list string :=
  map (fun c => String c EmptyString) (list_ascii_of_string s).

Definition elements (require_labels : labels) : list string :=
  match require_labels with
  | LabelStr s => characters s
  | LabelTuple t => t
  end.

(** The truth value of [require_labels]: false when empty. *)
Definition truthy (require_labels : labels) : bool :=
  match elements require_labels with [] => false | _ :: _ => true end.

Definition has_label (github_cfg : GithubConfig) (label : string) : bool :=
  existsb (String.eqb label) (purpose_labels github_cfg).

(** [set(require_labels) - set(github_cfg.purpose_labels())]; the code only
    asks whether it is empty, so duplicates are left in. *)
Definition missing_labels (require_labels : labels)
    (github_cfg : GithubConfig) : list string :=
  filter (fun label => negb (has_label github_cfg label))
         (elements require_labels).

(** The loop of [github_cfg_for_repo_url] over the configured elements. *)
Fixpoint for_cfg_elements (cfg_elements : list GithubConfig)
    (require_labels : labels) (repo_url : string)
    (matching_cfgs : list GithubConfig) : list GithubConfig :=
  match cfg_elements with
  | [] => matching_cfgs
  | github_cfg :: rest =>
      if (truthy require_labels
          && match missing_labels require_labels github_cfg with
             | [] => false
             | _ :: _ => true
             end)%bool
      then for_cfg_elements rest require_labels repo_url matching_cfgs
      else if matches_repo_url github_cfg repo_url
      then for_cfg_elements rest require_labels repo_url
             (matching_cfgs ++ [github_cfg])
      else for_cfg_elements rest require_labels repo_url matching_cfgs
  end.

(** [github_cfg_for_repo_url(repo_url, cfg_factory, require_labels)];
    [cfg_elements] is [cfg_factory._cfg_elements(cfg_type_name='github')]. *)
Definition github_cfg_for_repo_url (cfg_elements : list GithubConfig)
    (repo_url : string) (require_labels : labels)
  : error + GithubConfig :=
  let matching_cfgs :=
    for_cfg_elements cfg_elements require_labels repo_url [] in
  let matching_cfgs :=
    sorted (fun config => List.length (repo_urls config)) matching_cfgs in
  if (List.length matching_cfgs =? 0)%nat
  then inl (ConfigElementNotFoundError repo_url)
  else
    match last_element matching_cfgs with
    | Some gh_cfg => inr gh_cfg
    | None => inl IndexError
    end.

(** [has_required_labels], local to [github_cfg_for_hostname], after a
    [str] has been turned into the tuple of its characters. *)
Definition has_required_labels (require_labels : labels)
    (github_cfg : GithubConfig) : bool :=
  let require_labels :=
    match require_labels with
    | LabelStr s => LabelTuple (characters s)
    | LabelTuple t => LabelTuple t
    end in
  if negb (truthy require_labels) then true
  else forallb (has_label github_cfg) (elements require_labels).

Fixpoint first_for_hostname (cfgs : list GithubConfig) (host_name : string)
  : option GithubConfig :=
  match cfgs with
  | [] => None
  | github_cfg :: rest =>
      if matches_hostname github_cfg host_name then Some github_cfg
      else first_for_hostname rest host_name
  end.

(** [github_cfg_for_hostname(host_name, cfg_factory, require_labels)]. *)
Definition github_cfg_for_hostname (cfg_elements : list GithubConfig)
    (host_name : string) (require_labels : labels)
  : error + GithubConfig :=
  match first_for_hostname
          (filter (has_required_labels require_labels) cfg_elements)
          host_name with
  | Some github_cfg => inr github_cfg
  | None => inl (RuntimeError host_name)
  end.

End ccc_github.

(** A configuration carries every required label. *)
Definition labels_present (require_labels : ccc_github.labels)
    (github_cfg : ccc_github.GithubConfig) : bool :=
  forallb (ccc_github.has_label github_cfg)
          (ccc_github.elements require_labels).

(** What [github_cfg_for_repo_url] asks of a configuration. *)
Definition serves_repo_url (require_labels : ccc_github.labels)
    (repo_url : string) (github_cfg : ccc_github.GithubConfig) : bool :=
  labels_present require_labels github_cfg
  && ccc_github.matches_repo_url github_cfg repo_url.

(** What [github_cfg_for_hostname] asks of a configuration. *)
Definition serves_hostname (require_labels : ccc_github.labels)
    (host_name : string) (github_cfg : ccc_github.GithubConfig) : bool :=
  labels_present require_labels github_cfg
  && ccc_github.matches_hostname github_cfg host_name.

Definition url_count (github_cfg : ccc_github.GithubConfig) : nat :=
  List.length (ccc_github.repo_urls github_cfg).

(** Sample configurations: two that serve [github.com], one of them with
    more repository URLs, and one without the label [ci]. *)
Definition sample_cfg (name : string) (labels urls : list string)
  : ccc_github.GithubConfig :=
  {| ccc_github.name := name;
     ccc_github.purpose_labels := labels;
     ccc_github.repo_urls := urls;
     ccc_github.matches_repo_url := fun repo_url =>
       existsb (fun u => String.prefix u repo_url) urls;
     ccc_github.matches_hostname := fun host_name =>
       existsb (String.eqb host_name) urls |}.

Definition sample_cfgs : list ccc_github.GithubConfig :=
  [ sample_cfg "narrow" ["ci"] ["github.com"];
    sample_cfg "unlabelled" ["pr"] ["github.com"; "a"; "b"; "c"];
    sample_cfg "wide" ["ci"; "pr"] ["github.com"; "github.example"];
    sample_cfg "other" ["ci"] ["gitlab.example"; "x"; "y"] ].

(** The latest of the elements of [x :: l] that have the greatest key. *)
Fixpoint rightmost_max {A} (key : A -> nat) (x : A) (l : list A) : A :=
  match l with
  | [] => x
  | y :: rest =>
      let m := rightmost_max key y rest in
      if (key x <=? key m)%nat then m else x
  end.

(** ** [concourse/util.py] *)

Module concourse_util.

Inductive error : Type :=
| RuntimeError (msg : string)
| SubscriptError
| UnboundLocalError (name : string)
| EnvironmentError (what : string).

Definition result (A : Type) : Type := (error + A)%type.

Notation "'let*' x ':=' e 'in' k" :=
  (match e with inl err => inl err | inr x => k end)
  (at level 10, x pattern, e at level 100, k at level 200).

Record PipelineMetaData : Type := {
  pipeline_name : string;
  job_name : string;
  current_config_set_name : string;
  team_name : string;
}.

(** A build of the job, as far as [find_own_running_build] looks at it:
    whether [build.status()] is [BuildStatus.RUNNING], and the lines that
    [build.events().iter_buildlog(...)] gives for the task of the meta
    step. *)
Record Build : Type := {
  build_number : Z;
  is_running : bool;
  meta_buildlog : list string;
}.

(** What [json.loads] makes of the output of the meta step, and what the
    subscript [['uuid']] then gives: no JSON at all, JSON in which the
    subscript fails (with [KeyError] or [TypeError], here
    [SubscriptError]), or JSON with a uuid. *)
Inductive meta_output : Type :=
| NotJson
| JsonWithoutUuid
| JsonWithUuid (uuid : string).

Section OnConcourse.

(** A configuration set, and a configuration factory when one is passed. *)
Variable CfgSet : Type.

(** What surrounds the function: [ci.util._running_on_ci] and
    [ci.util.check_env], the path of the meta file for a root directory
    ([os.path.abspath] of [os.path.join]), the [uuid] of the JSON document
    in that file, the builds that the client of a team gives for a job,
    [str.strip] and [json.loads]. *)
Record Environment : Type := {
  running_on_ci : bool;
  check_env : string -> result string;
  meta_info_path : string -> string;
  read_meta_uuid : string -> result string;
  job_builds : string -> option CfgSet -> string -> string -> list Build;
  strip : string -> string;
  json_loads : string -> meta_output;
}.

Variable env : Environment.

Definition get_pipeline_metadata : result PipelineMetaData :=
  if negb (running_on_ci env) then
    inl (RuntimeError
      "Pipeline-metadata is only available if running on CI infrastructure")
  else
    let* current_cfg_set_name := check_env env "CONCOURSE_CURRENT_CFG" in
    let* team_name := check_env env "CONCOURSE_CURRENT_TEAM" in
    let* pipeline_name := check_env env "PIPELINE_NAME" in
    let* job_name := check_env env "BUILD_JOB_NAME" in
    inr {| pipeline_name := pipeline_name;
           job_name := job_name;
           current_config_set_name := current_cfg_set_name;
           team_name := team_name |}.

Definition meta_info_file_from_env : result string :=
  let* root := check_env env "CC_ROOT_DIR" in
  inr (meta_info_path env root).

(** The output of the meta step of a build, parsed. *)
Definition meta_of (build : Build) : meta_output :=
  json_loads env (strip env (String.concat "" (meta_buildlog build))).

(** The loop over the builds that are considered, with its [else]. *)
Fixpoint for_builds (builds : list Build) (build_job_uuid : string)
  : result Build :=
  match builds with
  | [] => inl (RuntimeError "Could not determine own Concourse job.")
  | build :: rest =>
      match meta_of build with
      | NotJson => for_builds rest build_job_uuid
      | JsonWithoutUuid => inl SubscriptError
      | JsonWithUuid uuid =>
          if String.eqb uuid build_job_uuid then inr build
          else for_builds rest build_job_uuid
      end
  end.

Definition consider_builds : nat := 20.

(** [find_own_running_build(cfg_factory)], one call of it. *)
Definition find_own_running_build (cfg_factory : option (string -> CfgSet))
  : result Build :=
  if negb (running_on_ci env) then
    inl (RuntimeError
      "Can only find own running build if running on CI infrastructure.")
  else
    let* meta_info_file := meta_info_file_from_env in
    let* build_job_uuid := read_meta_uuid env meta_info_file in
    let* cfg_set :=
      match cfg_factory with
      | Some factory =>
          let* current_cfg_set_name :=
            check_env env "CONCOURSE_CURRENT_CFG" in
          inr (Some (factory current_cfg_set_name))
      | None => inr None
      end in
    let* pipeline_metadata := get_pipeline_metadata in
    let builds :=
      job_builds env (team_name pipeline_metadata) cfg_set
        (pipeline_name pipeline_metadata) (job_name pipeline_metadata) in
    let builds := firstn consider_builds (filter is_running builds) in
    for_builds builds build_job_uuid.

End OnConcourse.

End concourse_util.

Arguments concourse_util.running_on_ci {CfgSet} _.
Arguments concourse_util.check_env {CfgSet} _ _.
Arguments concourse_util.meta_info_path {CfgSet} _ _.
Arguments concourse_util.read_meta_uuid {CfgSet} _ _.
Arguments concourse_util.job_builds {CfgSet} _ _ _ _ _.
Arguments concourse_util.strip {CfgSet} _ _.
Arguments concourse_util.json_loads {CfgSet} _ _.

(** A build whose meta step printed the given uuid; a sample environment on
    CI in which reading the meta file gives the uuid [own] and the job has
    the given builds. *)
Definition sample_build (number : Z) (running : bool) (uuid : string)
  : concourse_util.Build :=
  {| concourse_util.build_number := number;
     concourse_util.is_running := running;
     concourse_util.meta_buildlog := [uuid] |}.

Definition sample_environment (builds : list concourse_util.Build)
  : concourse_util.Environment unit :=
  {| concourse_util.running_on_ci := true;
     concourse_util.check_env := fun name => inr name;
     concourse_util.meta_info_path := fun root => root;
     concourse_util.read_meta_uuid := fun _ => inr "own";
     concourse_util.job_builds := fun _ _ _ _ => builds;
     concourse_util.strip := fun s => s;
     concourse_util.json_loads := fun s =>
       if String.eqb s "" then concourse_util.NotJson
       else concourse_util.JsonWithUuid s |}.

(** A build that the loop of [find_own_running_build] passes over: its
    meta output is not JSON, or carries another uuid. *)
Definition passed_over {CfgSet} (env : concourse_util.Environment CfgSet)
    (own : string) (build : concourse_util.Build) : bool :=
  match concourse_util.meta_of CfgSet env build with
  | concourse_util.NotJson => true
  | concourse_util.JsonWithoutUuid => false
  | concourse_util.JsonWithUuid uuid => negb (String.eqb uuid own)
  end.

(** The builds that [find_own_running_build] looks at, for the pipeline
    metadata [pm]. *)
Definition considered {CfgSet} (env : concourse_util.Environment CfgSet)
    (cfg_factory : option (string -> CfgSet))
    (pm : concourse_util.PipelineMetaData) : list concourse_util.Build :=
  firstn concourse_util.consider_builds
    (filter concourse_util.is_running
       (concourse_util.job_builds env (concourse_util.team_name pm)
          (option_map (fun factory =>
                         factory (concourse_util.current_config_set_name pm))
                      cfg_factory)
          (concourse_util.pipeline_name pm) (concourse_util.job_name pm))).

Definition sample_pipeline_metadata : concourse_util.PipelineMetaData :=
  {| concourse_util.pipeline_name := "PIPELINE_NAME";
     concourse_util.job_name := "BUILD_JOB_NAME";
     concourse_util.current_config_set_name := "CONCOURSE_CURRENT_CFG";
     concourse_util.team_name := "CONCOURSE_CURRENT_TEAM" |}.

(** Running builds of other jobs' uuid, numbered from 1. *)
Definition other_builds (n : nat) : list concourse_util.Build :=
  map (fun i => sample_build (Z.of_nat i) true "other") (seq 1 n).

(** [concourse/util.py]: the organization webhooks *)

Module webhooks.

(** The [github3] objects that [_github_api_hostname] tells apart. *)
Inductive GithubApi : Type :=
| GitHubEnterprise (url : string)
| GitHub
| OtherApi.

(** The configuration elements of [model/], as far as they are read. *)
Record GithubOrgConfig : Type := {
  org_name : string;
  github_cfg_name : string;
}.

Record JobMapping : Type := {
  github_organisations : list GithubOrgConfig;
}.

Record JobMappingSet : Type := {
  job_mappings : list (string * JobMapping);
}.

Record ConcourseConfig : Type := {
  job_mapping_cfg_name : string;
  is_accessible_from : string -> bool;
}.

Record GithubConfig : Type := { http_url : string }.

Record WebhookDispatcherConfig : Type := {
  concourse_config_names : list string;
}.

Record WebhookDispatcherDeploymentConfig : Type := {
  webhook_dispatcher_config_name : string;
  external_url : string;
  events : list string;
}.

Record ConfigFactory : Type := {
  webhook_dispatcher : string -> WebhookDispatcherConfig;
  concourse : string -> ConcourseConfig;
  job_mapping : string -> JobMappingSet;
  github : string -> GithubConfig;
}.

(** One call of [create_or_update_org_hook]. *)
Record HookCall : Type := {
  hook_api : GithubApi;
  hook_organization_name : string;
  hook_events : list string;
  hook_webhook_url : string;
  hook_skip_ssl_validation : bool;
}.

(** What is logged, without the wording. *)
Inductive log_record : Type :=
| InfoHookSet (hostname : option string)
    (organization_name webhook_url : string)
| WarningHookError (organization_name : string)
| WarningSomeFailed.

Inductive error : Type := UnboundLocalError (name : string).

(** A run of [sync_org_webhooks]: the calls of the syncer, the log, and the
    exception it ended with, if any. *)
Record run : Type := {
  hook_calls : list HookCall;
  log : list log_record;
  raised : option error;
}.

Section Webhooks.

(** [ctx().cfg_factory()], [ccc.github.github_api],
    [ci.util.create_url_from_attributes], the constant
    [github.webhook.DEFAULT_ORG_HOOK_QUERY_KEY], the host name that
    [urllib.parse.urlparse] finds in a URL, and whether a call of
    [GithubWebHookSyncer.create_or_update_org_hook] returns ([true]) or
    raises an [Exception] ([false]). *)
Variable cfg_factory : ConfigFactory.
Variable github_api : GithubConfig -> GithubApi.
Variable create_url_from_attributes :
  string -> string -> string -> string -> string -> string -> string.
Variable DEFAULT_ORG_HOOK_QUERY_KEY : string.
Variable urlparse_hostname : string -> option string.
Variable create_or_update_org_hook : HookCall -> bool.

Definition _github_api_hostname (api : GithubApi) : option string :=
  match api with
  | GitHubEnterprise url => urlparse_hostname url
  | GitHub => Some "github.com"
  | OtherApi => None
  end.

Definition _enumerate_github_org_configs (job_mapping_set : JobMappingSet)
  : list (string * string) :=
  flat_map (fun item =>
    map (fun github_org_config =>
           (org_name github_org_config, github_cfg_name github_org_config))
        (github_organisations (snd item)))
    (job_mappings job_mapping_set).

Definition _enumerate_required_org_webhooks
    (whd_deployment_cfg : WebhookDispatcherDeploymentConfig)
  : list (string * GithubApi * string) :=
  let whd_cfg_name := webhook_dispatcher_config_name whd_deployment_cfg in
  let whd_cfg := webhook_dispatcher cfg_factory whd_cfg_name in
  let concourse_cfgs :=
    map (concourse cfg_factory) (concourse_config_names whd_cfg) in
  flat_map (fun concourse_cfg =>
    let job_mapping_set :=
      job_mapping cfg_factory (job_mapping_cfg_name concourse_cfg) in
    flat_map (fun org_and_cfg =>
      let github_orgname := fst org_and_cfg in
      let github_cfg := github cfg_factory (snd org_and_cfg) in
      let api := github_api github_cfg in
      if negb (is_accessible_from concourse_cfg (http_url github_cfg))
      then []
      else
        let webhook_url :=
          create_url_from_attributes
            (external_url whd_deployment_cfg) "https" "github-webhook" ""
            (DEFAULT_ORG_HOOK_QUERY_KEY ++ "=" ++ whd_cfg_name)%string "" in
        [(github_orgname, api, webhook_url)])
      (_enumerate_github_org_configs job_mapping_set))
    concourse_cfgs.

(** The loop of [sync_org_webhooks]; [failed_hooks] is [None] as long as
    the variable is not bound. *)
Fixpoint for_webhooks (hooks : list (string * GithubApi * string))
    (whd_deployment_cfg : WebhookDispatcherDeploymentConfig)
    (failed_hooks : option Z) (calls : list HookCall)
    (logged : list log_record)
  : option Z * list HookCall * list log_record :=
  match hooks with
  | [] => (failed_hooks, calls, logged)
  | (organization_name, api, webhook_url) :: rest =>
      let failed_hooks := 0 in
      let call :=
        {| hook_api := api;
           hook_organization_name := organization_name;
           hook_events := events whd_deployment_cfg;
           hook_webhook_url := webhook_url;
           hook_skip_ssl_validation := false |} in
      if create_or_update_org_hook call then
        for_webhooks rest whd_deployment_cfg (Some failed_hooks)
          (calls ++ [call])
          (logged ++ [InfoHookSet (_github_api_hostname api)
                        organization_name webhook_url])
      else
        for_webhooks rest whd_deployment_cfg (Some (failed_hooks + 1))
          (calls ++ [call])
          (logged ++ [WarningHookError organization_name])
  end.

Definition sync_org_webhooks
    (whd_deployment_cfg : WebhookDispatcherDeploymentConfig) : run :=
  match for_webhooks (_enumerate_required_org_webhooks whd_deployment_cfg)
          whd_deployment_cfg None [] [] with
  | (None, calls, logged) =>
      {| hook_calls := calls;
         log := logged;
         raised := Some (UnboundLocalError "failed_hooks") |}
  | (Some failed_hooks, calls, logged) =>
      {| hook_calls := calls;
         log := if negb (failed_hooks =? 0)
                then logged ++ [WarningSomeFailed] else logged;
         raised := None |}
  end.

End Webhooks.

End webhooks.

(** The call that [sync_org_webhooks] issues for a required webhook. *)
Definition hook_call_for
    (whd_deployment_cfg : webhooks.WebhookDispatcherDeploymentConfig)
    (hook : string * webhooks.GithubApi * string) : webhooks.HookCall :=
  {| webhooks.hook_api := snd (fst hook);
     webhooks.hook_organization_name := fst (fst hook);
     webhooks.hook_events := webhooks.events whd_deployment_cfg;
     webhooks.hook_webhook_url := snd hook;
     webhooks.hook_skip_ssl_validation := false |}.

(** The one URL of the organization webhooks of a dispatcher. *)
Definition dispatcher_webhook_url
    (create_url_from_attributes :
       string -> string -> string -> string -> string -> string -> string)
    (DEFAULT_ORG_HOOK_QUERY_KEY : string)
    (whd_deployment_cfg : webhooks.WebhookDispatcherDeploymentConfig)
  : string :=
  create_url_from_attributes
    (webhooks.external_url whd_deployment_cfg) "https" "github-webhook" ""
    (DEFAULT_ORG_HOOK_QUERY_KEY ++ "="
       ++ webhooks.webhook_dispatcher_config_name whd_deployment_cfg)%string
    "".

(** A sample configuration: one concourse with two organizations, of which
    the second lives on a GitHub that the concourse cannot reach. *)
Definition sample_cfg_factory : webhooks.ConfigFactory :=
  {| webhooks.webhook_dispatcher := fun _ =>
       {| webhooks.concourse_config_names := ["concourse"] |};
     webhooks.concourse := fun _ =>
       {| webhooks.job_mapping_cfg_name := "mapping";
          webhooks.is_accessible_from := fun url =>
            String.eqb url "https://github.com" |};
     webhooks.job_mapping := fun _ =>
       {| webhooks.job_mappings :=
            [("team",
              {| webhooks.github_organisations :=
                   [ {| webhooks.org_name := "org-a";
                        webhooks.github_cfg_name := "github_com" |};
                     {| webhooks.org_name := "org-b";
                        webhooks.github_cfg_name := "internal" |};
                     {| webhooks.org_name := "org-c";
                        webhooks.github_cfg_name := "github_com" |} ] |})] |};
     webhooks.github := fun name =>
       {| webhooks.http_url :=
            if String.eqb name "github_com" then "https://github.com"
            else "https://github.internal" |} |}.

Definition sample_whd : webhooks.WebhookDispatcherDeploymentConfig :=
  {| webhooks.webhook_dispatcher_config_name := "whd";
     webhooks.external_url := "whd.example";
     webhooks.events := ["push"; "pull_request"] |}.

Definition sample_create_url (netloc scheme path params query fragment : string)
  : string :=
  (scheme ++ "://" ++ netloc ++ "/" ++ path ++ "?" ++ query)%string.

(** A syncer that fails for the organization [org-c] only. *)
Definition sample_syncer (call : webhooks.HookCall) : bool :=
  negb (String.eqb (webhooks.hook_organization_name call) "org-c").

(** What [sync_org_webhooks] logs for a required webhook. *)
Definition hook_log (urlparse_hostname : string -> option string)
    (create_or_update_org_hook : webhooks.HookCall -> bool)
    (whd_deployment_cfg : webhooks.WebhookDispatcherDeploymentConfig)
    (hook : string * webhooks.GithubApi * string) : webhooks.log_record :=
  if create_or_update_org_hook (hook_call_for whd_deployment_cfg hook)
  then webhooks.InfoHookSet
         (webhooks._github_api_hostname urlparse_hostname (snd (fst hook)))
         (fst (fst hook)) (snd hook)
  else webhooks.WarningHookError (fst (fst hook)).

(** ** [kube/helper.py] *)

Module kube.

Inductive error : Type :=
| ApiException (status : Z)
| Failure (msg : string)
| NotImplementedError.

(** The objects of the Kubernetes client, as far as the helpers fill or read
    them. *)
Record V1Secret : Type := {
  secret_name : string;
  secret_namespace : string;
  secret_data : list (string * string);
}.

Record V1Namespace : Type := { namespace_name : string }.

(** A service, a deployment or an ingress: [metadata.name] and the rest. *)
Record V1Object : Type := {
  metadata_name : string;
  spec : string;
}.

Inductive kind : Type := Service | Deployment | Ingress.

(** The requests that the helpers send to the API. *)
Inductive request : Type :=
| read_namespaced_secret (name namespace : string)
| create_namespaced_secret (namespace : string) (body : V1Secret)
| replace_namespaced_secret (name namespace : string) (body : V1Secret)
| list_namespace
| create_namespace (body : V1Namespace)
| delete_namespace (name : string)
| read_namespaced (k : kind) (name namespace : string)
| delete_namespaced (k : kind) (namespace name : string)
| create_namespaced (k : kind) (namespace : string) (body : V1Object)
| patch_namespaced_deployment (name namespace : string)
    (body : list (string * string)).

Section Cluster.

(** The cluster behind the API: its state, and for every request the answer
    ([inl status] when the client raises [ApiException]) and the state
    after. *)
Variable State : Type.

Record Api : Type := {
  on_read_secret : string -> string -> State -> (Z + V1Secret) * State;
  on_write : request -> State -> (Z + unit) * State;
  on_list_namespace : State -> (Z + list V1Namespace) * State;
  on_create_namespace : V1Namespace -> State -> (Z + V1Namespace) * State;
  on_read : kind -> string -> string -> State -> (Z + V1Object) * State;
}.

Variable api : Api.

(** [util.not_empty] gives back a value that is not empty and fails
    otherwise, [util.fail] raises; which strings and which dictionaries
    count as empty is [util]'s matter. [str] of a value and
    [base64.b64encode] of its UTF-8 bytes, decoded, are taken as they
    are. *)
Variable is_not_empty : string -> bool.
Variable is_not_empty_dict : list (string * string) -> bool.
Variable Scalar : Type.
Variable str : Scalar -> string.
Variable b64encode : string -> string.

(** Computations that talk to the API: the state of the cluster and the
    requests sent so far go in, and come out with the result. *)
Definition world : Type := (State * list request)%type.
Definition M (A : Type) : Type := world -> (error + A) * world.

Definition ret {A} (a : A) : M A := fun w => (inr a, w).
Definition raise {A} (e : error) : M A := fun w => (inl e, w).
Definition bind {A B} (m : M A) (k : A -> M B) : M B :=
  fun w => match m w with
           | (inl e, w') => (inl e, w')
           | (inr a, w') => k a w'
           end.

Notation "'let!' x ':=' m 'in' k" := (bind m (fun x => k))
  (at level 10, x pattern, m at level 100, k at level 200).

(** Sending a request. *)
Definition send {A} (req : request) (answer : State -> (Z + A) * State)
  : M A :=
  fun w =>
    match answer (fst w) with
    | (inl status, st) => (inl (ApiException status), (st, snd w ++ [req]))
    | (inr a, st) => (inr a, (st, snd w ++ [req]))
    end.

(** [try: m except ApiException as ae:] with [None] for the status 404 and
    the exception raised again for any other. *)
Definition none_on_404 {A} (m : M A) : M (option A) :=
  fun w => match m w with
           | (inl (ApiException status), w') =>
               if status =? 404 then (inr None, w')
               else (inl (ApiException status), w')
           | (inl e, w') => (inl e, w')
           | (inr a, w') => (inr (Some a), w')
           end.

Definition not_empty (value : string) : M string :=
  if is_not_empty value then ret value
  else raise (Failure "passed value must not be empty").

Definition not_empty_dict (value : list (string * string))
  : M (list (string * string)) :=
  if is_not_empty_dict value then ret value
  else raise (Failure "passed value must not be empty").

(** *** [KubernetesSecretHelper] *)

Definition put_secret (name : string) (data : list (string * Scalar))
    (namespace : string) : M unit :=
  let! checked_name := not_empty name in
  let! checked_namespace := not_empty namespace in
  let secret_data := map (fun kv => (fst kv, b64encode (str (snd kv)))) data in
  let secret :=
    {| secret_name := checked_name;
       secret_namespace := checked_namespace;
       secret_data := secret_data |} in
  let! found :=
    none_on_404
      (send (read_namespaced_secret name namespace)
            (on_read_secret api name namespace)) in
  match found with
  | Some _ =>
      send (replace_namespaced_secret name namespace secret)
           (on_write api (replace_namespaced_secret name namespace secret))
  | None =>
      send (create_namespaced_secret namespace secret)
           (on_write api (create_namespaced_secret namespace secret))
  end.

Definition get_secret (name namespace : string) : M (option V1Secret) :=
  none_on_404
    (send (read_namespaced_secret name namespace)
          (on_read_secret api name namespace)).

(** *** [KubernetesNamespaceHelper] *)

Definition create_namespace_helper (namespace : string) : M V1Namespace :=
  let! _ := not_empty namespace in
  let ns := {| namespace_name := namespace |} in
  send (create_namespace ns) (on_create_namespace api ns).

(** The loop of [get_namespace] over the listed items. *)
Fixpoint for_namespaces (items : list V1Namespace) (namespace : string)
  : option V1Namespace :=
  match items with
  | [] => None
  | ns :: rest =>
      if negb (String.eqb (namespace_name ns) namespace)
      then for_namespaces rest namespace
      else Some ns
  end.

Definition get_namespace (namespace : string) : M (option V1Namespace) :=
  let! items := send list_namespace (on_list_namespace api) in
  ret (for_namespaces items namespace).

Definition create_if_absent (namespace : string) : M unit :=
  let! _ := not_empty namespace in
  let! existing_namespace := get_namespace namespace in
  match existing_namespace with
  | None => let! _ := create_namespace_helper namespace in ret tt
  | Some _ => ret tt
  end.

Definition delete_namespace_helper (namespace : string) : M unit :=
  let! _ := not_empty namespace in
  send (delete_namespace namespace) (on_write api (delete_namespace namespace)).

(** *** [KubernetesServiceHelper], [KubernetesDeploymentHelper] and
    [KubernetesIngressHelper], which differ in the kind of object

    An object that is passed in is never [None] here, so [not_none] has
    nothing to refuse; the [V1DeleteOptions] that go with the deletion of a
    deployment or an ingress are always the same. *)

Definition get_object (k : kind) (namespace name : string)
  : M (option V1Object) :=
  let! _ := not_empty namespace in
  let! _ := not_empty name in
  none_on_404
    (send (read_namespaced k name namespace) (on_read api k name namespace)).

Definition create_object (k : kind) (namespace : string) (body : V1Object)
  : M unit :=
  let! _ := not_empty namespace in
  send (create_namespaced k namespace body)
       (on_write api (create_namespaced k namespace body)).

Definition replace_or_create (k : kind) (namespace : string)
    (body : V1Object) : M unit :=
  let! _ := not_empty namespace in
  let object_name := metadata_name body in
  let! existing := get_object k namespace object_name in
  let! _ :=
    match existing with
    | Some _ =>
        send (delete_namespaced k namespace object_name)
             (on_write api (delete_namespaced k namespace object_name))
    | None => ret tt
    end in
  create_object k namespace body.

Definition get_service := get_object Service.
Definition create_service := create_object Service.
Definition replace_or_create_service := replace_or_create Service.
Definition get_deployment := get_object Deployment.
Definition create_deployment := create_object Deployment.
Definition replace_or_create_deployment := replace_or_create Deployment.
Definition get_ingress := get_object Ingress.
Definition create_ingress := create_object Ingress.
Definition replace_or_create_ingress := replace_or_create Ingress.

Definition patch_deployment (name namespace : string)
    (body : list (string * string)) : M unit :=
  let! _ := not_empty name in
  let! _ := not_empty namespace in
  let! _ := not_empty_dict body in
  let! existing := get_deployment namespace name in
  let! _ :=
    match existing with
    | None =>
        raise (Failure ("Deployment " ++ name ++ " in namespace "
                          ++ namespace ++ " does not exist"))
    | Some _ => ret tt
    end in
  send (patch_namespaced_deployment name namespace body)
       (on_write api (patch_namespaced_deployment name namespace body)).

End Cluster.

End kube.

Arguments kube.on_read_secret {State} _ _ _ _.
Arguments kube.on_write {State} _ _ _.
Arguments kube.on_list_namespace {State} _ _.
Arguments kube.on_create_namespace {State} _ _ _.
Arguments kube.on_read {State} _ _ _ _ _.

(** The secret that [put_secret] writes. *)
Definition secret_for {Scalar} (str : Scalar -> string)
    (b64encode : string -> string) (name : string)
    (data : list (string * Scalar)) (namespace : string) : kube.V1Secret :=
  {| kube.secret_name := name;
     kube.secret_namespace := namespace;
     kube.secret_data :=
       map (fun kv => (fst kv, b64encode (str (snd kv)))) data |}.

(** A cluster without state of its own: secrets and objects are there or
    not as [present] says, the listed namespaces are given, and every write
    is answered with the given status, if any. *)
Definition fixed_api (present : bool) (namespaces : list string)
    (write_status : option Z) : kube.Api unit :=
  {| kube.on_read_secret := fun name namespace st =>
       (if present
        then inr {| kube.secret_name := name;
                    kube.secret_namespace := namespace;
                    kube.secret_data := [] |}
        else inl 404, st);
     kube.on_write := fun _ st =>
       (match write_status with Some status => inl status | None => inr tt end,
        st);
     kube.on_list_namespace := fun st =>
       (inr (map (fun n => {| kube.namespace_name := n |}) namespaces), st);
     kube.on_create_namespace := fun ns st => (inr ns, st);
     kube.on_read := fun _ name _ st =>
       (if present
        then inr {| kube.metadata_name := name; kube.spec := "" |}
        else inl 404, st) |}.

Definition any_not_empty (value : string) : bool :=
  negb (String.eqb value "").





(** The scan call for a member of an archive that [scan_tarfile] is given:
    the member's data under the member's name. *)
Definition member_call (tar_info : tarfile.TarInfo) : ScanCall :=
  {| call_data := tarfile.content tar_info;
     call_name := tarfile.name tar_info |}.

(** A registry whose image lists three platforms, the second of them with a
    manifest of a kind that [_iter_layers] does not know. *)
Definition mixed_registry : oci.Client :=
  {| oci.manifest := fun image_reference =>
       if String.eqb image_reference "registry.example/mixed:1.0" then
         oci.OciImageManifestList
           [ {| oci.manifest_digest := "sha256:amd64" |};
             {| oci.manifest_digest := "sha256:riscv" |};
             {| oci.manifest_digest := "sha256:arm64" |} ]
       else if String.eqb image_reference
                 "registry.example/mixed@sha256:amd64" then
         oci.OciImageManifest [layer "sha256:a1"; layer "sha256:a2"]
       else if String.eqb image_reference
                 "registry.example/mixed@sha256:arm64" then
         oci.OciImageManifest [layer "sha256:b1"; layer "sha256:b2"]
       else oci.OtherManifest;
     oci.blob := oci.blob sample_registry |}.

(** ** The result aggregator: lemmas on the loop *)

Lemma invariant_excludes_unknown (results : list client.ScanResult) :
  forallb client.data_model_invariant results = true ->
  existsb client.succeeded_unknown results = false.
Proof.
  induction results as [|r rest IH]; simpl; [reflexivity|].
  intro H. apply andb_prop in H as [Hr Hrest]. rewrite (IH Hrest).
  unfold client.data_model_invariant in Hr.
  unfold client.succeeded_unknown, client.is_succeeded, client.is_failed.
  destruct (client.status r), (client.malware_status r);
    try reflexivity; discriminate Hr.
Qed.

Lemma loop_body_rejects (r : client.ScanResult) (v : scan.locals) :
  client.succeeded_unknown r = true ->
  scan.loop_body r v = inl InvariantViolation.
Proof.
  unfold scan.loop_body, client.succeeded_unknown, client.is_succeeded,
    client.is_failed.
  destruct (client.status r), (client.malware_status r);
    intro H; try discriminate H; reflexivity.
Qed.

Lemma loop_body_continues (r : client.ScanResult) (v : scan.locals) :
  client.succeeded_unknown r = false ->
  scan.loop_body r v = inr (locals_after [r] v).
Proof.
  unfold scan.loop_body, client.succeeded_unknown, locals_after,
    successful_metas, is_finding, client.has_malware, client.is_succeeded,
    client.is_failed.
  destruct v as [c s o sd ud fs]. destruct r as [n st ms d m].
  destruct st, ms; simpl; intro H; try discriminate H;
    rewrite ?andb_true_r, ?andb_false_r, ?app_nil_r; reflexivity.
Qed.

Lemma locals_after_cons (r : client.ScanResult)
    (rest : list client.ScanResult) (v : scan.locals) :
  locals_after rest (locals_after [r] v) = locals_after (r :: rest) v.
Proof.
  unfold locals_after, successful_metas, is_finding, client.has_malware,
    client.is_succeeded, client.is_failed.
  destruct v as [c s o sd ud fs]. destruct r as [n st ms d m].
  destruct st, ms; simpl;
    rewrite ?andb_true_r, ?andb_false_r, ?app_nil_r, <- ?app_assoc;
    f_equal; lia.
Qed.

(** The loop comes to its end exactly when no successful result reports
    [UNKNOWN]. *)
Lemma for_results_consistent (results : list client.ScanResult) :
  forall v, existsb client.succeeded_unknown results = false ->
  scan.for_results results v = inr (locals_after results v).
Proof.
  induction results as [|r rest IH]; intros v H.
  - destruct v. unfold locals_after. simpl.
    now rewrite Z.add_0_r, andb_true_r, app_nil_r.
  - simpl in H. apply orb_false_elim in H as [Hr Hrest].
    simpl. rewrite (loop_body_continues r v Hr), (IH _ Hrest).
    now rewrite locals_after_cons.
Qed.

Lemma for_results_rejects (results : list client.ScanResult) :
  forall v, existsb client.succeeded_unknown results = true ->
  scan.for_results results v = inl InvariantViolation.
Proof.
  induction results as [|r rest IH]; intros v H; simpl in H;
    [discriminate H|].
  simpl. destruct (client.succeeded_unknown r) eqn:Hr.
  - now rewrite (loop_body_rejects r v Hr).
  - rewrite (loop_body_continues r v Hr). exact (IH _ H).
Qed.

Lemma filter_length_lt_1 {A} (p : A -> bool) (xs : list A) :
  (Z.of_nat (List.length (filter p xs)) <? 1) = negb (existsb p xs).
Proof.
  induction xs as [|x rest IH]; simpl; [reflexivity|].
  destruct (p x); simpl; [|exact IH].
  apply Z.ltb_ge. lia.
Qed.

Lemma findings_without_failure (results : list client.ScanResult) :
  existsb client.is_failed results = false ->
  filter is_finding results = filter client.has_malware results.
Proof.
  induction results as [|r rest IH]; simpl; [reflexivity|].
  intro H. apply orb_false_elim in H as [Hr Hrest].
  rewrite (IH Hrest). unfold is_finding, client.is_succeeded.
  now rewrite Hr.
Qed.

Lemma malware_without_failure (results : list client.ScanResult) :
  existsb client.is_failed results = false ->
  existsb is_finding results = existsb client.has_malware results.
Proof.
  induction results as [|r rest IH]; simpl; [reflexivity|].
  intro H. apply orb_false_elim in H as [Hr Hrest].
  rewrite (IH Hrest). unfold is_finding, client.is_succeeded.
  now rewrite Hr.
Qed.

Lemma count_of_nonempty {A} (xs : list A) :
  xs <> [] -> (Z.of_nat (List.length xs) =? 0) = false.
Proof.
  destruct xs as [|x rest]; [congruence|].
  intros _. apply Z.eqb_neq. simpl List.length. lia.
Qed.

Lemma aggregate_consistent (resource : cm.Resource)
    (results : list client.ScanResult) (name : option string) :
  results <> [] ->
  existsb client.succeeded_unknown results = false ->
  scan.aggregate_scan_result resource results name
  = inr (aggregated resource results name).
Proof.
  intros Hne Hc. unfold scan.aggregate_scan_result, aggregated.
  rewrite (for_results_consistent results _ Hc).
  unfold locals_after, scan.initial_locals. simpl.
  rewrite (count_of_nonempty results Hne), filter_length_lt_1.
  unfold sum_int, sum_float.
  destruct (existsb client.is_failed results),
           (existsb is_finding results); reflexivity.
Qed.

Lemma aggregate_inconsistent (resource : cm.Resource)
    (results : list client.ScanResult) (name : option string) :
  existsb client.succeeded_unknown results = true ->
  scan.aggregate_scan_result resource results name = inl InvariantViolation.
Proof.
  intro Hu. unfold scan.aggregate_scan_result.
  now rewrite (for_results_rejects results _ Hu).
Qed.

(** ** The result aggregator: the verdict, the findings, the totals *)

(** C1: on a non-empty sequence of results, each of which satisfies the
    invariant of the data model, [aggregate_scan_result] returns, and its
    [malware_status] is [UNKNOWN] as soon as one result has status
    [SCAN_FAILED], whatever malware the others report; without a failed
    result it is [FOUND_MALWARE] when some result reports [FOUND_MALWARE],
    and [OK] otherwise. *)
Theorem aggregate_verdict (resource : cm.Resource)
    (results : list client.ScanResult) (name : option string) :
  results <> [] ->
  forallb client.data_model_invariant results = true ->
  exists agg,
    scan.aggregate_scan_result resource results name = inr agg /\
    scan.malware_status agg =
      if existsb client.is_failed results then client.UNKNOWN
      else if existsb client.has_malware results
           then client.FOUND_MALWARE else client.OK.
Proof.
  intros Hne Hinv.
  rewrite (aggregate_consistent resource results name Hne
             (invariant_excludes_unknown results Hinv)).
  eexists. split; [reflexivity|]. simpl.
  destruct (existsb client.is_failed results) eqn:Hf; [reflexivity|].
  now rewrite (malware_without_failure results Hf).
Qed.

Lemma aggregate_verdict_witness :
  exists agg,
    scan.aggregate_scan_result sample_resource
      [infected_result "a"; failed_result "b"; clean_result "c"] None
    = inr agg /\
    scan.malware_status agg = client.UNKNOWN.
Proof.
  apply (aggregate_verdict sample_resource
           [infected_result "a"; failed_result "b"; clean_result "c"] None).
  - discriminate.
  - reflexivity.
Defined.

(** C2: on a sequence of results, each of which satisfies the invariant of
    the data model, in which no result has status [SCAN_FAILED] and at least
    one reports [FOUND_MALWARE], the verdict is [FOUND_MALWARE] and
    [findings] is exactly the subsequence of the input results that report
    [FOUND_MALWARE], in input order. *)
Theorem aggregate_findings (resource : cm.Resource)
    (results : list client.ScanResult) (name : option string) :
  forallb client.data_model_invariant results = true ->
  existsb client.is_failed results = false ->
  existsb client.has_malware results = true ->
  exists agg,
    scan.aggregate_scan_result resource results name = inr agg /\
    scan.malware_status agg = client.FOUND_MALWARE /\
    scan.findings agg = filter client.has_malware results.
Proof.
  intros Hinv Hf Hm.
  assert (Hne : results <> []) by (destruct results; discriminate).
  rewrite (aggregate_consistent resource results name Hne
             (invariant_excludes_unknown results Hinv)).
  eexists. split; [reflexivity|]. simpl.
  rewrite Hf, (malware_without_failure results Hf), Hm.
  split; [reflexivity|]. exact (findings_without_failure results Hf).
Qed.

Lemma aggregate_findings_witness :
  exists agg,
    scan.aggregate_scan_result sample_resource
      [infected_result "a"; clean_result "b"; infected_result "c"] None
    = inr agg /\
    scan.malware_status agg = client.FOUND_MALWARE /\
    scan.findings agg = [infected_result "a"; infected_result "c"].
Proof.
  apply (aggregate_findings sample_resource
           [infected_result "a"; clean_result "b"; infected_result "c"] None);
    reflexivity.
Defined.

(** C3: on the empty sequence [aggregate_scan_result] raises the
    [ValueError] for an empty results-iterator and returns nothing; on a
    non-empty sequence it never raises that error. *)
Theorem aggregate_empty (resource : cm.Resource) (name : option string) :
  scan.aggregate_scan_result resource [] name = inl EmptyResultError /\
  forall results, results <> [] ->
    scan.aggregate_scan_result resource results name <> inl EmptyResultError.
Proof.
  split; [reflexivity|].
  intros results Hne.
  destruct (existsb client.succeeded_unknown results) eqn:Hu.
  - rewrite (aggregate_inconsistent resource results name Hu). discriminate.
  - rewrite (aggregate_consistent resource results name Hne Hu). discriminate.
Qed.

Lemma aggregate_empty_witness :
  scan.aggregate_scan_result sample_resource [failed_result "a"] None
  <> inl EmptyResultError.
Proof.
  apply (proj2 (aggregate_empty sample_resource None)).
  discriminate.
Defined.

(** C4: on a non-empty sequence of results that satisfy the data-model
    invariant, [scanned_octets], [scan_duration_seconds] and
    [upload_duration_seconds] are the sums of the [meta] fields of the
    results with status [SCAN_SUCCEEDED] only, and [scan_count] is the
    number of all results, failed ones included. *)
Theorem aggregate_totals (resource : cm.Resource)
    (results : list client.ScanResult) (name : option string) :
  results <> [] ->
  forallb client.data_model_invariant results = true ->
  exists agg,
    scan.aggregate_scan_result resource results name = inr agg /\
    scan.scanned_octets agg =
      sum_int (map client.scanned_octets (successful_metas results)) /\
    scan.scan_duration_seconds agg =
      sum_float
        (map client.scan_duration_seconds (successful_metas results)) /\
    scan.upload_duration_seconds agg =
      sum_float
        (map client.receive_duration_seconds (successful_metas results)) /\
    scan.scan_count agg = Z.of_nat (List.length results).
Proof.
  intros Hne Hinv.
  rewrite (aggregate_consistent resource results name Hne
             (invariant_excludes_unknown results Hinv)).
  eexists. split; [reflexivity|]. simpl. repeat split.
Qed.

Lemma aggregate_totals_witness :
  exists agg,
    scan.aggregate_scan_result sample_resource
      [clean_result "a"; failed_result "b"; infected_result "c"] None
    = inr agg /\
    scan.scanned_octets agg = 168 /\
    scan.scan_duration_seconds agg = 1%float /\
    scan.upload_duration_seconds agg = 0.5%float /\
    scan.scan_count agg = 3.
Proof.
  apply (aggregate_totals sample_resource
           [clean_result "a"; failed_result "b"; infected_result "c"] None).
  - discriminate.
  - reflexivity.
Defined.

(** C8: a sequence that holds a successful result reporting [UNKNOWN] makes
    [aggregate_scan_result] raise the [ValueError] for an unknown state
    after a successful scan, instead of returning an aggregated result; when
    no successful result reports [UNKNOWN], that error is never raised. *)
Theorem aggregate_rejects_successful_unknown (resource : cm.Resource)
    (results : list client.ScanResult) (name : option string) :
  (existsb client.succeeded_unknown results = true ->
   scan.aggregate_scan_result resource results name = inl InvariantViolation)
  /\
  (existsb client.succeeded_unknown results = false ->
   scan.aggregate_scan_result resource results name
   <> inl InvariantViolation).
Proof.
  split; intro Hu.
  - exact (aggregate_inconsistent resource results name Hu).
  - destruct results as [|r rest]; [discriminate|].
    rewrite (aggregate_consistent resource (r :: rest) name) by
      (assumption || discriminate).
    discriminate.
Qed.

Lemma aggregate_rejects_successful_unknown_witness :
  scan.aggregate_scan_result sample_resource
    [infected_result "a"; inconsistent_result "b"; failed_result "c"] None
  = inl InvariantViolation
  /\
  scan.aggregate_scan_result sample_resource
    [infected_result "a"; failed_result "c"] None
  <> inl InvariantViolation.
Proof.
  split.
  - apply (proj1 (aggregate_rejects_successful_unknown sample_resource
             [infected_result "a"; inconsistent_result "b"; failed_result "c"]
             None)); reflexivity.
  - apply (proj2 (aggregate_rejects_successful_unknown sample_resource
             [infected_result "a"; failed_result "c"] None)); reflexivity.
Defined.


(** ** Generators: sequencing *)

Lemma gen_seq_done_l {A} (g : gen A) : gen_done ;; g = g.
Proof. now destruct g. Qed.

Lemma gen_seq_done_r {A} (g : gen A) : g ;; gen_done = g.
Proof.
  destruct g as [ys cs [|e]]; unfold gen_seq; simpl; [|reflexivity].
  now rewrite !app_nil_r.
Qed.

Lemma gen_seq_assoc {A} (g h k : gen A) : (g ;; h) ;; k = g ;; (h ;; k).
Proof.
  destruct g as [ys cs [|e]], h as [ys' cs' [|e']]; unfold gen_seq; simpl;
    try reflexivity.
  now rewrite !app_assoc.
Qed.

Lemma gen_for_app {A B} (xs ys : list A) (body : A -> gen B) :
  gen_for (xs ++ ys) body = gen_for xs body ;; gen_for ys body.
Proof.
  induction xs as [|x rest IH]; simpl.
  - now rewrite gen_seq_done_l.
  - now rewrite IH, gen_seq_assoc.
Qed.


Lemma fuel_for_mono {A B} (f f' : A -> option (gen B)) (xs : list A) :
  (forall x g, In x xs -> f x = Some g -> f' x = Some g) ->
  forall g, fuel_for xs f = Some g -> fuel_for xs f' = Some g.
Proof.
  induction xs as [|x rest IH]; intros Hff g H; simpl in *; [exact H|].
  unfold fuel_seq in *.
  destruct (f x) as [gx|] eqn:Hx; [|discriminate H].
  rewrite (Hff x gx (or_introl eq_refl) Hx).
  destruct (gen_end gx); [|exact H].
  destruct (fuel_for rest f) as [gr|] eqn:Hr; [|discriminate H].
  now rewrite (IH (fun y g' Hy => Hff y g' (or_intror Hy)) gr eq_refl).
Qed.

(** A loop whose turns all come to their end yields what the turns yield,
    one after the other. *)
Lemma fuel_for_returned {A B} (body : A -> option (gen B)) (xs : list A)
    (yss : list (list B)) :
  Forall2 (fun x ys => body x = Some (mk_gen ys [] Returned)) xs yss ->
  fuel_for xs body = Some (mk_gen (List.concat yss) [] Returned).
Proof.
  induction 1 as [|x ys xs' yss' Hx _ IH]; simpl; [reflexivity|].
  unfold fuel_seq. now rewrite Hx, IH.
Qed.

(** A loop stops at the first turn that raises: what was yielded up to there
    stays yielded, the turns after it are not run. *)
Lemma fuel_for_raised {A B} (body : A -> option (gen B))
    (before after : list A) (failing : A) (yss : list (list B))
    (partial : list B) (e : exn) :
  Forall2 (fun x ys => body x = Some (mk_gen ys [] Returned)) before yss ->
  body failing = Some (mk_gen partial [] (Raised e)) ->
  fuel_for (before ++ failing :: after) body
  = Some (mk_gen (List.concat yss ++ partial) [] (Raised e)).
Proof.
  intros Hbefore Hfailing.
  induction Hbefore as [|x ys xs' yss' Hx _ IH]; simpl.
  - unfold fuel_seq. now rewrite Hfailing.
  - unfold fuel_seq. rewrite Hx, IH. cbn. now rewrite app_assoc.
Qed.

(** ** Archives: the loop over the members *)

(** As long as no regular file is cut short, every regular file is scanned
    and answered, and the loop comes to its end. *)
Lemma scan_loop_whole (clamav_client : client.ClamAVClient)
    (tf : tarfile.TarFile) (name_of : tarfile.TarInfo -> string)
    (members : list tarfile.TarInfo) :
  existsb tarfile.unreadable members = false ->
  gen_for members (fun tar_info =>
    if negb (tarfile.isfile tar_info) then gen_done
    else scan.scan_and_yield clamav_client (tarfile.extractfile tf tar_info)
           (name_of tar_info))
  = mk_gen
      (map (fun tar_info =>
              client.scan clamav_client (tarfile.content tar_info)
                (name_of tar_info))
           (filter tarfile.isfile members))
      (map (fun tar_info =>
              {| call_data := tarfile.content tar_info;
                 call_name := name_of tar_info |})
           (filter tarfile.isfile members))
      Returned.
Proof.
  induction members as [|m rest IH]; [reflexivity|].
  cbn [existsb]. intro H. apply orb_false_elim in H as [Hm Hrest].
  cbn [gen_for filter]. rewrite (IH Hrest).
  unfold tarfile.unreadable in Hm.
  destruct (tarfile.isfile m); [|reflexivity].
  cbn [andb negb] in *.
  unfold scan.scan_and_yield, tarfile.extractfile. rewrite Hm.
  reflexivity.
Qed.

(** The first regular file that is cut short is handed to the scan client,
    whose call raises; nothing after it is read. *)
Lemma scan_loop_cut (clamav_client : client.ClamAVClient)
    (tf : tarfile.TarFile) (name_of : tarfile.TarInfo -> string)
    (before after : list tarfile.TarInfo) (member : tarfile.TarInfo) :
  existsb tarfile.unreadable before = false ->
  tarfile.unreadable member = true ->
  gen_for (before ++ member :: after) (fun tar_info =>
    if negb (tarfile.isfile tar_info) then gen_done
    else scan.scan_and_yield clamav_client (tarfile.extractfile tf tar_info)
           (name_of tar_info))
  = mk_gen
      (map (fun tar_info =>
              client.scan clamav_client (tarfile.content tar_info)
                (name_of tar_info))
           (filter tarfile.isfile before))
      (map (fun tar_info =>
              {| call_data := tarfile.content tar_info;
                 call_name := name_of tar_info |})
           (filter tarfile.isfile before)
       ++ [{| call_data := tarfile.content member;
              call_name := name_of member |}])
      (Raised TarError).
Proof.
  intros Hbefore Hm.
  rewrite gen_for_app, (scan_loop_whole _ _ _ _ Hbefore).
  cbn [gen_for].
  unfold tarfile.unreadable in Hm. apply andb_prop in Hm as [Hfile Hcut].
  rewrite Hfile. cbn [negb].
  unfold scan.scan_and_yield, tarfile.extractfile. rewrite Hcut.
  cbn. now rewrite app_nil_r.
Qed.

Lemma unreadable_split (members : list tarfile.TarInfo) :
  existsb tarfile.unreadable members = true ->
  exists before member after,
    members = before ++ member :: after /\
    existsb tarfile.unreadable before = false /\
    tarfile.unreadable member = true.
Proof.
  induction members as [|m rest IH]; [discriminate|].
  cbn [existsb]. destruct (tarfile.unreadable m) eqn:Hm.
  - intros _. now exists [], m, rest.
  - cbn [orb]. intro H. destruct (IH H) as [b [x [a [-> [Hb Hx]]]]].
    exists (m :: b), x, a. repeat split; [|exact Hx].
    cbn [existsb]. now rewrite Hm, Hb.
Qed.

(** ** Layers, blobs and images *)

Section PipelineFacts.

Variable ref_without_tag : string -> string.
Variable tarfile_open : list Byte.byte -> option tarfile.TarFile.

(** More fuel does not change what [_iter_layers] gives. *)
Lemma iter_layers_fuel_mono (oci_client : oci.Client) (fuel : nat) :
  forall fuel' image_reference g,
    (fuel <= fuel')%nat ->
    scan._iter_layers ref_without_tag fuel image_reference oci_client
      = Some g ->
    scan._iter_layers ref_without_tag fuel' image_reference oci_client
      = Some g.
Proof.
  induction fuel as [|n IH]; intros fuel' image_reference g Hle H;
    [discriminate H|].
  destruct fuel' as [|m]; [lia|].
  simpl in *.
  destruct (oci.manifest oci_client image_reference) as [ls|ms|];
    try exact H.
  revert H. apply fuel_for_mono.
  intros x gx _ Hx. apply (IH m); [lia | exact Hx].
Qed.

(** The file-wise scan of a blob whose archive opens, by what the archive
    is like. *)
Lemma scan_oci_blob_filewise_whole (blob_reference : oci.OciBlobRef)
    (image_reference : string) (oci_client : oci.Client)
    (clamav_client : client.ClamAVClient) (tf : tarfile.TarFile) :
  tarfile_open
    (oci.blob oci_client image_reference (oci.digest blob_reference))
    = Some tf ->
  existsb tarfile.unreadable (tarfile.members tf) = false ->
  let calls :=
    map (filewise_call image_reference blob_reference)
        (filter tarfile.isfile (tarfile.members tf)) in
  scan.scan_oci_blob_filewise tarfile_open blob_reference image_reference
    oci_client clamav_client
  = mk_gen (map (answer clamav_client) calls) calls
      (if tarfile.bad_header tf then Raised TarError else Returned).
Proof.
  intros Hopen Hcut calls. subst calls.
  unfold scan.scan_oci_blob_filewise. rewrite Hopen.
  pose proof (scan_loop_whole clamav_client tf
                (filewise_name image_reference blob_reference)
                (tarfile.members tf) Hcut) as Hloop.
  unfold filewise_name in Hloop. rewrite Hloop.
  unfold tarfile.damaged. rewrite Hcut, orb_false_r, map_map.
  destruct (tarfile.bad_header tf); unfold gen_seq; cbn;
    now rewrite !app_nil_r.
Qed.

Lemma scan_oci_blob_filewise_cut (blob_reference : oci.OciBlobRef)
    (image_reference : string) (oci_client : oci.Client)
    (clamav_client : client.ClamAVClient) (tf : tarfile.TarFile)
    (before after : list tarfile.TarInfo) (member : tarfile.TarInfo) :
  tarfile_open
    (oci.blob oci_client image_reference (oci.digest blob_reference))
    = Some tf ->
  tarfile.members tf = before ++ member :: after ->
  existsb tarfile.unreadable before = false ->
  tarfile.unreadable member = true ->
  let calls :=
    map (filewise_call image_reference blob_reference)
        (filter tarfile.isfile before) in
  scan.scan_oci_blob_filewise tarfile_open blob_reference image_reference
    oci_client clamav_client
  = mk_gen (map (answer clamav_client) calls)
      (calls ++ [filewise_call image_reference blob_reference member])
      (Raised TarError).
Proof.
  intros Hopen Hsplit Hbefore Hm calls. subst calls.
  unfold scan.scan_oci_blob_filewise. rewrite Hopen, Hsplit.
  pose proof (scan_loop_cut clamav_client tf
                (filewise_name image_reference blob_reference)
                before after member Hbefore Hm) as Hloop.
  unfold filewise_name in Hloop. rewrite Hloop, map_map.
  reflexivity.
Qed.

(** The file-wise scan ends by coming to its end or with a [TarError], the
    error that [scan_oci_blob] catches. *)
Lemma scan_oci_blob_filewise_end (blob_reference : oci.OciBlobRef)
    (image_reference : string) (oci_client : oci.Client)
    (clamav_client : client.ClamAVClient) :
  let filewise :=
    scan.scan_oci_blob_filewise tarfile_open blob_reference image_reference
      oci_client clamav_client in
  gen_end filewise = Returned \/ gen_end filewise = Raised TarError.
Proof.
  cbv zeta.
  destruct (tarfile_open
              (oci.blob oci_client image_reference (oci.digest blob_reference)))
    as [tf|] eqn:Hopen.
  - destruct (existsb tarfile.unreadable (tarfile.members tf)) eqn:Hcut.
    + destruct (unreadable_split _ Hcut) as [b [m [a [Hsplit [Hb Hm]]]]].
      rewrite (scan_oci_blob_filewise_cut blob_reference image_reference
                 oci_client clamav_client tf b a m Hopen Hsplit Hb Hm).
      now right.
    + rewrite (scan_oci_blob_filewise_whole blob_reference image_reference
                 oci_client clamav_client tf Hopen Hcut).
      cbn [gen_end]. destruct (tarfile.bad_header tf); [now right|now left].
  - unfold scan.scan_oci_blob_filewise. rewrite Hopen. now right.
Qed.

Lemma scan_oci_blob_returned (blob_reference : oci.OciBlobRef)
    (image_reference : string) (oci_client : oci.Client)
    (clamav_client : client.ClamAVClient) :
  gen_end (scan.scan_oci_blob tarfile_open blob_reference image_reference
             oci_client clamav_client) = Returned.
Proof.
  unfold scan.scan_oci_blob, try_except_TarError.
  destruct (scan_oci_blob_filewise_end blob_reference image_reference
              oci_client clamav_client) as [H|H]; rewrite H;
    [exact H | reflexivity].
Qed.

Lemma executor_map_sequential (layer_blobs : list oci.OciBlobRef)
    (image_reference : string) (oci_client : oci.Client)
    (clamav_client : client.ClamAVClient) :
  gen_for
    (scan.executor_map
       (fun blob_reference =>
          scan.scan_oci_blob tarfile_open blob_reference image_reference
            oci_client clamav_client)
       layer_blobs)
    (fun res => res)
  = scan.scan_layers_sequentially tarfile_open layer_blobs image_reference
      oci_client clamav_client.
Proof.
  unfold scan.executor_map.
  induction layer_blobs as [|b rest IH]; simpl; [reflexivity|].
  now rewrite IH.
Qed.

Lemma scan_layers_sequentially_concat (layer_blobs : list oci.OciBlobRef)
    (image_reference : string) (oci_client : oci.Client)
    (clamav_client : client.ClamAVClient) :
  scan.scan_layers_sequentially tarfile_open layer_blobs image_reference
    oci_client clamav_client
  = mk_gen
      (List.concat (map (fun b =>
         yielded (scan.scan_oci_blob tarfile_open b image_reference
                    oci_client clamav_client)) layer_blobs))
      (List.concat (map (fun b =>
         scan_calls (scan.scan_oci_blob tarfile_open b image_reference
                       oci_client clamav_client)) layer_blobs))
      Returned.
Proof.
  induction layer_blobs as [|b rest IH]; simpl; [reflexivity|].
  rewrite IH. unfold gen_seq. now rewrite scan_oci_blob_returned.
Qed.

(** Whatever the number of layers, as long as there is one: the image scan
    is the scan of its layers one after the other. *)
Lemma scan_oci_image_layers (fuel : nat) (image_reference : string)
    (oci_client : oci.Client) (clamav_client : client.ClamAVClient)
    (enumerated : gen oci.OciBlobRef) :
  scan._iter_layers ref_without_tag fuel image_reference oci_client
    = Some enumerated ->
  gen_end enumerated = Returned ->
  yielded enumerated <> [] ->
  scan.scan_oci_image ref_without_tag tarfile_open fuel image_reference
    oci_client clamav_client
  = Some (scan.scan_layers_sequentially tarfile_open (yielded enumerated)
            image_reference oci_client clamav_client).
Proof.
  intros Hit Hret Hne. unfold scan.scan_oci_image. rewrite Hit, Hret.
  destruct (1 <? Z.of_nat (List.length (yielded enumerated))) eqn:Hlen.
  - now rewrite executor_map_sequential.
  - destruct (yielded enumerated) as [|b [|b' rest]]; [congruence| |].
    + simpl. now rewrite gen_seq_done_r.
    + apply Z.ltb_ge in Hlen. simpl List.length in Hlen. lia.
Qed.

(** C5: what [_iter_layers] gives for an image reference, by the manifest
    that the registry hands back. For a single-image manifest: exactly its
    [layers], in manifest order. For a manifest list: what the recursion
    gives for the reference [{ref_without_tag}@{digest}] of each listed
    sub-manifest, one after the other in the order of the list; and when the
    recursion raises for one of the sub-manifests (a sub-manifest of a kind
    that is not supported), the enumeration raises that error there, after
    the layers of the sub-manifests before it. For any other manifest:
    nothing is yielded and [NotImplementedError] is raised. *)
Theorem iter_layers_flattens (fuel : nat) (image_reference : string)
    (oci_client : oci.Client) :
  (forall layers,
     oci.manifest oci_client image_reference = oci.OciImageManifest layers ->
     scan._iter_layers ref_without_tag (S fuel) image_reference oci_client
       = Some (mk_gen layers [] Returned))
  /\
  (forall manifests layerss,
     oci.manifest oci_client image_reference
       = oci.OciImageManifestList manifests ->
     Forall2 (fun manifest layers =>
       scan._iter_layers ref_without_tag fuel
         (sub_manifest_img_ref ref_without_tag image_reference manifest)
         oci_client
       = Some (mk_gen layers [] Returned)) manifests layerss ->
     scan._iter_layers ref_without_tag (S fuel) image_reference oci_client
       = Some (mk_gen (List.concat layerss) [] Returned))
  /\
  (forall before failing after layerss partial e,
     oci.manifest oci_client image_reference
       = oci.OciImageManifestList (before ++ failing :: after) ->
     Forall2 (fun manifest layers =>
       scan._iter_layers ref_without_tag fuel
         (sub_manifest_img_ref ref_without_tag image_reference manifest)
         oci_client
       = Some (mk_gen layers [] Returned)) before layerss ->
     scan._iter_layers ref_without_tag fuel
       (sub_manifest_img_ref ref_without_tag image_reference failing)
       oci_client
     = Some (mk_gen partial [] (Raised e)) ->
     scan._iter_layers ref_without_tag (S fuel) image_reference oci_client
       = Some (mk_gen (List.concat layerss ++ partial) [] (Raised e)))
  /\
  (oci.manifest oci_client image_reference = oci.OtherManifest ->
   scan._iter_layers ref_without_tag (S fuel) image_reference oci_client
     = Some (mk_gen [] [] (Raised NotImplementedError))).
Proof.
  repeat split.
  - intros layers Hm. simpl. now rewrite Hm.
  - intros manifests layerss Hm Hsub. simpl. rewrite Hm.
    now apply fuel_for_returned.
  - intros before failing after layerss partial e Hm Hbefore Hfailing.
    simpl. rewrite Hm.
    now apply (fuel_for_raised _ before after failing layerss partial e).
  - intro Hm. simpl. now rewrite Hm.
Qed.

(** C6: for a blob that [tarfile] opens and reads to its end,
    [scan_oci_blob] issues one scan call per member that is a regular file,
    in the order of the archive, under the name
    [{image_reference}:{digest}:{entry name}], and none for any other
    member; it yields the answers in the same order. *)
Theorem scan_oci_blob_filewise_calls (blob_reference : oci.OciBlobRef)
    (image_reference : string) (oci_client : oci.Client)
    (clamav_client : client.ClamAVClient) (tf : tarfile.TarFile) :
  tarfile_open
    (oci.blob oci_client image_reference (oci.digest blob_reference))
    = Some tf ->
  tarfile.damaged tf = false ->
  let regular := filter tarfile.isfile (tarfile.members tf) in
  let calls := map (filewise_call image_reference blob_reference) regular in
  scan.scan_oci_blob tarfile_open blob_reference image_reference
    oci_client clamav_client
  = mk_gen (map (answer clamav_client) calls) calls Returned.
Proof.
  intros Hopen Hwhole regular calls. subst regular calls.
  unfold tarfile.damaged in Hwhole.
  apply orb_false_elim in Hwhole as [Hheader Hcut].
  unfold scan.scan_oci_blob, try_except_TarError.
  rewrite (scan_oci_blob_filewise_whole blob_reference image_reference
             oci_client clamav_client tf Hopen Hcut), Hheader.
  reflexivity.
Qed.


(** C9: when the layer enumeration comes to its end without a single blob,
    [scan_oci_image] takes the branch that reads [layer_blobs[0]] and raises
    [IndexError]: it yields nothing and does not come to a normal end. With
    exactly one blob that branch scans it. *)
Theorem scan_oci_image_without_layers (fuel : nat) (image_reference : string)
    (oci_client : oci.Client) (clamav_client : client.ClamAVClient)
    (enumerated : gen oci.OciBlobRef) :
  scan._iter_layers ref_without_tag fuel image_reference oci_client
    = Some enumerated ->
  gen_end enumerated = Returned ->
  (yielded enumerated = [] ->
   scan.scan_oci_image ref_without_tag tarfile_open fuel image_reference
     oci_client clamav_client = Some (gen_raise IndexError)
   /\
   scan.scan_oci_image ref_without_tag tarfile_open fuel image_reference
     oci_client clamav_client <> Some gen_done)
  /\
  (forall blob_reference,
     yielded enumerated = [blob_reference] ->
     scan.scan_oci_image ref_without_tag tarfile_open fuel image_reference
       oci_client clamav_client
     = Some (scan.scan_oci_blob tarfile_open blob_reference image_reference
               oci_client clamav_client)).
Proof.
  intros Hit Hret. unfold scan.scan_oci_image. rewrite Hit, Hret.
  split.
  - intro Hys. rewrite Hys. simpl. split; [reflexivity | discriminate].
  - intros blob_reference Hys. now rewrite Hys.
Qed.

(** C10: when the layer enumeration gives more than one blob,
    [scan_oci_image] is the scan of the layers one after the other in the
    order of the enumeration: it yields the results of [scan_oci_blob] for
    the first layer, then those for the second, and so on, and issues the
    scan calls in that order. *)
Theorem scan_oci_image_in_layer_order (fuel : nat) (image_reference : string)
    (oci_client : oci.Client) (clamav_client : client.ClamAVClient)
    (enumerated : gen oci.OciBlobRef) :
  scan._iter_layers ref_without_tag fuel image_reference oci_client
    = Some enumerated ->
  gen_end enumerated = Returned ->
  (1 < List.length (yielded enumerated))%nat ->
  let scan_func := fun b =>
    scan.scan_oci_blob tarfile_open b image_reference
      oci_client clamav_client in
  scan.scan_oci_image ref_without_tag tarfile_open fuel image_reference
    oci_client clamav_client
  = Some (scan.scan_layers_sequentially tarfile_open (yielded enumerated)
            image_reference oci_client clamav_client)
  /\
  scan.scan_oci_image ref_without_tag tarfile_open fuel image_reference
    oci_client clamav_client
  = Some (mk_gen
            (List.concat
               (map (fun b => yielded (scan_func b)) (yielded enumerated)))
            (List.concat
               (map (fun b => scan_calls (scan_func b)) (yielded enumerated)))
            Returned).
Proof.
  intros Hit Hret Hlen scan_func.
  assert (Hne : yielded enumerated <> [])
    by (destruct (yielded enumerated); [simpl in Hlen; lia | discriminate]).
  rewrite (scan_oci_image_layers fuel image_reference oci_client
             clamav_client enumerated Hit Hret Hne).
  split; [reflexivity|].
  now rewrite scan_layers_sequentially_concat.
Qed.

End PipelineFacts.

Lemma iter_layers_flattens_witness :
  scan._iter_layers sample_ref_without_tag 2 "registry.example/app:1.0"
    sample_registry
  = Some (mk_gen [layer "sha256:a1"; layer "sha256:a2";
                  layer "sha256:b1"; layer "sha256:b2"] [] Returned)
  /\
  scan._iter_layers sample_ref_without_tag 2 "registry.example/mixed:1.0"
    mixed_registry
  = Some (mk_gen [layer "sha256:a1"; layer "sha256:a2"] []
            (Raised NotImplementedError)).
Proof.
  split.
  - apply (proj1 (proj2 (iter_layers_flattens sample_ref_without_tag 1
                           "registry.example/app:1.0" sample_registry))
             [ {| oci.manifest_digest := "sha256:amd64" |};
               {| oci.manifest_digest := "sha256:arm64" |} ]
             [ [layer "sha256:a1"; layer "sha256:a2"];
               [layer "sha256:b1"; layer "sha256:b2"] ]).
    + reflexivity.
    + repeat constructor.
  - apply (proj1 (proj2 (proj2 (iter_layers_flattens sample_ref_without_tag 1
                                  "registry.example/mixed:1.0"
                                  mixed_registry)))
             [ {| oci.manifest_digest := "sha256:amd64" |} ]
             {| oci.manifest_digest := "sha256:riscv" |}
             [ {| oci.manifest_digest := "sha256:arm64" |} ]
             [ [layer "sha256:a1"; layer "sha256:a2"] ] [] NotImplementedError).
    + reflexivity.
    + repeat constructor.
    + reflexivity.
Defined.

Lemma scan_oci_blob_filewise_calls_witness :
  let calls :=
    [ {| call_data := list_byte_of_string "root";
         call_name := "registry.example/one:1.0:sha256:a1:etc/passwd" |};
      {| call_data := list_byte_of_string "ELF";
         call_name := "registry.example/one:1.0:sha256:a1:bin/sh" |};
      {| call_data := list_byte_of_string "hello";
         call_name := "registry.example/one:1.0:sha256:a1:README" |} ] in
  scan.scan_oci_blob sample_tarfile_open (layer "sha256:a1")
    "registry.example/one:1.0" sample_registry quiet_clamav
  = mk_gen (map (answer quiet_clamav) calls) calls Returned.
Proof.
  apply (scan_oci_blob_filewise_calls sample_tarfile_open (layer "sha256:a1")
           "registry.example/one:1.0" sample_registry quiet_clamav
           sample_archive); reflexivity.
Defined.


Lemma scan_oci_image_without_layers_witness :
  scan.scan_oci_image sample_ref_without_tag sample_tarfile_open 1
    "registry.example/empty:1.0" sample_registry quiet_clamav
  = Some (gen_raise IndexError)
  /\
  scan.scan_oci_image sample_ref_without_tag sample_tarfile_open 1
    "registry.example/empty:1.0" sample_registry quiet_clamav
  <> Some gen_done.
Proof.
  apply (proj1 (scan_oci_image_without_layers sample_ref_without_tag
                  sample_tarfile_open 1 "registry.example/empty:1.0"
                  sample_registry quiet_clamav (yield_from_list [])
                  eq_refl eq_refl)).
  reflexivity.
Defined.

Lemma scan_oci_image_in_layer_order_witness :
  let layer_blobs :=
    [layer "sha256:a1"; layer "sha256:a2";
     layer "sha256:b1"; layer "sha256:b2"] in
  let scan_func := fun b =>
    scan.scan_oci_blob sample_tarfile_open b "registry.example/app:1.0"
      sample_registry quiet_clamav in
  scan.scan_oci_image sample_ref_without_tag sample_tarfile_open 2
    "registry.example/app:1.0" sample_registry quiet_clamav
  = Some (scan.scan_layers_sequentially sample_tarfile_open layer_blobs
            "registry.example/app:1.0" sample_registry quiet_clamav)
  /\
  scan.scan_oci_image sample_ref_without_tag sample_tarfile_open 2
    "registry.example/app:1.0" sample_registry quiet_clamav
  = Some (mk_gen
            (List.concat (map (fun b => yielded (scan_func b)) layer_blobs))
            (List.concat (map (fun b => scan_calls (scan_func b)) layer_blobs))
            Returned).
Proof.
  apply (scan_oci_image_in_layer_order sample_ref_without_tag
           sample_tarfile_open 2 "registry.example/app:1.0" sample_registry
           quiet_clamav
           (yield_from_list
              [layer "sha256:a1"; layer "sha256:a2";
               layer "sha256:b1"; layer "sha256:b2"])).
  - reflexivity.
  - reflexivity.
  - simpl. lia.
Defined.

(** ** The result aggregator: what a returned result tells *)

(** [aggregate_scan_result] returns only on a non-empty sequence without a
    successful [UNKNOWN], and then it returns [aggregated]. *)
Lemma aggregate_returns_inv (resource : cm.Resource)
    (results : list client.ScanResult) (name : option string)
    (agg : scan.AggregatedScanResult) :
  scan.aggregate_scan_result resource results name = inr agg ->
  results <> [] /\
  existsb client.succeeded_unknown results = false /\
  agg = aggregated resource results name.
Proof.
  intro H.
  destruct (existsb client.succeeded_unknown results) eqn:Hu.
  - rewrite (aggregate_inconsistent resource results name Hu) in H.
    discriminate H.
  - destruct results as [|r rest]; [discriminate H|].
    rewrite (aggregate_consistent resource (r :: rest) name) in H
      by (assumption || discriminate).
    injection H as <-. repeat split. discriminate.
Qed.

Lemma filter_nil_existsb {A} (p : A -> bool) (xs : list A) :
  filter p xs = [] <-> existsb p xs = false.
Proof.
  induction xs as [|x rest IH]; simpl; [tauto|].
  destruct (p x); simpl; [|exact IH].
  split; discriminate.
Qed.

Lemma sum_int_from (xs : list Z) (a : Z) :
  fold_left Z.add xs a = a + sum_int xs.
Proof.
  unfold sum_int. revert a.
  induction xs as [|x rest IH]; intro a; simpl; [lia|].
  rewrite (IH (a + x)), (IH x). lia.
Qed.

Lemma sum_int_cons (x : Z) (xs : list Z) : sum_int (x :: xs) = x + sum_int xs.
Proof. unfold sum_int at 1. simpl. now rewrite sum_int_from. Qed.

Lemma sum_int_app (xs ys : list Z) :
  sum_int (xs ++ ys) = sum_int xs + sum_int ys.
Proof.
  induction xs as [|x rest IH]; [reflexivity|].
  simpl app. rewrite !sum_int_cons, IH. lia.
Qed.

Lemma successful_metas_app (xs ys : list client.ScanResult) :
  successful_metas (xs ++ ys) = successful_metas xs ++ successful_metas ys.
Proof. unfold successful_metas. now rewrite filter_app, map_app. Qed.

Lemma sum_int_nonneg (xs : list Z) :
  Forall (fun x => 0 <= x) xs -> 0 <= sum_int xs.
Proof.
  induction 1 as [|x rest Hx _ IH]; [reflexivity|].
  rewrite sum_int_cons. lia.
Qed.

Lemma filter_length_le {A} (p : A -> bool) (xs : list A) :
  (List.length (filter p xs) <= List.length xs)%nat.
Proof.
  induction xs as [|x rest IH]; simpl; [lia|].
  destruct (p x); simpl; lia.
Qed.

(** X1: in a returned result the verdict and the findings fit together:
    [UNKNOWN] exactly when a scan failed, [OK] exactly when none failed and
    there are no findings, [FOUND_MALWARE] exactly when none failed and
    there are findings. *)
Theorem aggregate_verdict_and_findings (resource : cm.Resource)
    (results : list client.ScanResult) (name : option string)
    (agg : scan.AggregatedScanResult) :
  scan.aggregate_scan_result resource results name = inr agg ->
  (scan.malware_status agg = client.UNKNOWN <->
   existsb client.is_failed results = true)
  /\
  (scan.malware_status agg = client.OK <->
   existsb client.is_failed results = false /\ scan.findings agg = [])
  /\
  (scan.malware_status agg = client.FOUND_MALWARE <->
   existsb client.is_failed results = false /\ scan.findings agg <> []).
Proof.
  intro H. apply aggregate_returns_inv in H as [_ [_ ->]].
  unfold aggregated. cbn [scan.malware_status scan.findings].
  assert (Hne : filter is_finding results <> [] <->
                existsb is_finding results = true).
  { rewrite filter_nil_existsb.
    destruct (existsb is_finding results); split; congruence. }
  rewrite Hne, filter_nil_existsb.
  destruct (existsb client.is_failed results);
    destruct (existsb is_finding results);
    repeat split; intros; try discriminate; try tauto;
    match goal with H : _ /\ _ |- _ => destruct H; discriminate end.
Qed.

Lemma aggregate_verdict_and_findings_witness :
  let agg := aggregated sample_resource
               [infected_result "a"; failed_result "b"] None in
  (scan.malware_status agg = client.UNKNOWN <->
   existsb client.is_failed [infected_result "a"; failed_result "b"] = true)
  /\
  (scan.malware_status agg = client.OK <->
   existsb client.is_failed [infected_result "a"; failed_result "b"] = false
   /\ scan.findings agg = [])
  /\
  (scan.malware_status agg = client.FOUND_MALWARE <->
   existsb client.is_failed [infected_result "a"; failed_result "b"] = false
   /\ scan.findings agg <> []).
Proof.
  apply (aggregate_verdict_and_findings sample_resource
           [infected_result "a"; failed_result "b"] None).
  reflexivity.
Defined.

(** X2: whether or not a scan failed, the findings of a returned result are
    the input results that succeeded and report [FOUND_MALWARE], in input
    order; a failed result is never among them. *)
Theorem aggregate_findings_always (resource : cm.Resource)
    (results : list client.ScanResult) (name : option string)
    (agg : scan.AggregatedScanResult) :
  scan.aggregate_scan_result resource results name = inr agg ->
  scan.findings agg
    = filter (fun r => client.is_succeeded r && client.has_malware r) results
  /\
  Forall (fun r => In r results /\
                   client.status r = client.SCAN_SUCCEEDED /\
                   client.malware_status r = client.FOUND_MALWARE)
         (scan.findings agg).
Proof.
  intro H. apply aggregate_returns_inv in H as [_ [_ ->]].
  split; [reflexivity|].
  apply Forall_forall. intros r Hr. cbn [aggregated scan.findings] in Hr.
  apply filter_In in Hr as [Hin Hf]. split; [exact Hin|].
  unfold is_finding, client.is_succeeded, client.is_failed,
    client.has_malware in Hf.
  destruct (client.status r), (client.malware_status r);
    try discriminate Hf; split; reflexivity.
Qed.

Lemma aggregate_findings_always_witness :
  scan.findings
    (aggregated sample_resource
       [infected_result "a"; failed_result "b"; infected_result "c"] None)
  = [infected_result "a"; infected_result "c"].
Proof.
  apply (proj1 (aggregate_findings_always sample_resource
                  [infected_result "a"; failed_result "b";
                   infected_result "c"] None _ eq_refl)).
Defined.

(** X3: results put together. When [aggregate_scan_result] returns for two
    sequences, it returns for the one followed by the other: the counts and
    the scanned octets add up, the findings follow each other, and the
    verdict is the worse of the two. *)
Theorem aggregate_append (resource : cm.Resource)
    (xs ys : list client.ScanResult) (name : option string)
    (a b : scan.AggregatedScanResult) :
  scan.aggregate_scan_result resource xs name = inr a ->
  scan.aggregate_scan_result resource ys name = inr b ->
  exists c,
    scan.aggregate_scan_result resource (xs ++ ys) name = inr c /\
    scan.scan_count c = scan.scan_count a + scan.scan_count b /\
    scan.scanned_octets c = scan.scanned_octets a + scan.scanned_octets b /\
    scan.findings c = scan.findings a ++ scan.findings b /\
    scan.malware_status c
      = worst (scan.malware_status a) (scan.malware_status b).
Proof.
  intros Ha Hb.
  apply aggregate_returns_inv in Ha as [Hne [Hua ->]].
  apply aggregate_returns_inv in Hb as [_ [Hub ->]].
  exists (aggregated resource (xs ++ ys) name). split.
  - apply aggregate_consistent.
    + destruct xs; [congruence | discriminate].
    + now rewrite existsb_app, Hua, Hub.
  - unfold aggregated.
    cbn [scan.scan_count scan.scanned_octets scan.findings
         scan.malware_status].
    rewrite length_app, Nat2Z.inj_add, successful_metas_app, map_app,
      sum_int_app, filter_app, !existsb_app.
    repeat split.
    destruct (existsb client.is_failed xs), (existsb client.is_failed ys),
      (existsb is_finding xs), (existsb is_finding ys); reflexivity.
Qed.

Lemma aggregate_append_witness :
  exists c,
    scan.aggregate_scan_result sample_resource
      ([infected_result "a"] ++ [failed_result "b"; clean_result "c"]) None
    = inr c /\
    scan.scan_count c = 1 + 2 /\
    scan.scanned_octets c = 68 + 100 /\
    scan.findings c = [infected_result "a"] ++ [] /\
    scan.malware_status c = worst client.FOUND_MALWARE client.UNKNOWN.
Proof.
  apply (aggregate_append sample_resource [infected_result "a"]
           [failed_result "b"; clean_result "c"] None
           (aggregated sample_resource [infected_result "a"] None)
           (aggregated sample_resource
              [failed_result "b"; clean_result "c"] None));
    reflexivity.
Defined.

Lemma existsb_permutation {A} (p : A -> bool) (xs ys : list A) :
  Permutation xs ys -> existsb p xs = existsb p ys.
Proof.
  induction 1 as [|x l l' _ IH|x y l|l l' l'' _ IH1 _ IH2]; simpl.
  - reflexivity.
  - now rewrite IH.
  - destruct (p x), (p y); reflexivity.
  - now rewrite IH1.
Qed.

Lemma filter_permutation {A} (p : A -> bool) (xs ys : list A) :
  Permutation xs ys -> Permutation (filter p xs) (filter p ys).
Proof.
  induction 1 as [|x l l' _ IH|x y l|l l' l'' _ IH1 _ IH2]; simpl.
  - constructor.
  - destruct (p x); [now constructor | exact IH].
  - destruct (p x), (p y); try reflexivity. constructor.
  - now transitivity (filter p l').
Qed.

Lemma sum_int_permutation (xs ys : list Z) :
  Permutation xs ys -> sum_int xs = sum_int ys.
Proof.
  induction 1 as [|x l l' _ IH|x y l|l l' l'' _ IH1 _ IH2].
  - reflexivity.
  - now rewrite !sum_int_cons, IH.
  - rewrite !sum_int_cons. lia.
  - now rewrite IH1.
Qed.

(** X4: the order of the results does not matter for what is decided.
    When the results are put in another order, [aggregate_scan_result]
    raises the same exception or returns a result with the same verdict,
    count and scanned octets, and with the same findings in another order. *)
Theorem aggregate_order_independent (resource : cm.Resource)
    (xs ys : list client.ScanResult) (name : option string) :
  Permutation xs ys ->
  match scan.aggregate_scan_result resource xs name,
        scan.aggregate_scan_result resource ys name with
  | inl e, inl e' => e = e'
  | inr a, inr b =>
      scan.malware_status a = scan.malware_status b /\
      scan.scan_count a = scan.scan_count b /\
      scan.scanned_octets a = scan.scanned_octets b /\
      Permutation (scan.findings a) (scan.findings b)
  | _, _ => False
  end.
Proof.
  intro Hp.
  pose proof (existsb_permutation client.succeeded_unknown xs ys Hp) as Hu.
  destruct (existsb client.succeeded_unknown xs) eqn:Hux; symmetry in Hu.
  - now rewrite (aggregate_inconsistent resource xs name Hux),
      (aggregate_inconsistent resource ys name Hu).
  - destruct xs as [|x xs'].
    + apply Permutation_nil in Hp. subst ys. reflexivity.
    + assert (Hney : ys <> []).
      { intros ->. apply Permutation_sym, Permutation_nil in Hp.
        discriminate Hp. }
      rewrite (aggregate_consistent resource (x :: xs') name) by
        (assumption || discriminate).
      rewrite (aggregate_consistent resource ys name Hney Hu).
      unfold aggregated.
      cbn [scan.scan_count scan.scanned_octets scan.findings
           scan.malware_status].
      rewrite (existsb_permutation client.is_failed _ _ Hp),
        (existsb_permutation is_finding _ _ Hp),
        (Permutation_length Hp).
      repeat split.
      * apply sum_int_permutation, Permutation_map.
        unfold successful_metas.
        now apply Permutation_map, filter_permutation.
      * now apply filter_permutation.
Qed.

Lemma aggregate_order_independent_witness :
  match scan.aggregate_scan_result sample_resource
          [infected_result "a"; clean_result "b"] None,
        scan.aggregate_scan_result sample_resource
          [clean_result "b"; infected_result "a"] None with
  | inl e, inl e' => e = e'
  | inr a, inr b =>
      scan.malware_status a = scan.malware_status b /\
      scan.scan_count a = scan.scan_count b /\
      scan.scanned_octets a = scan.scanned_octets b /\
      Permutation (scan.findings a) (scan.findings b)
  | _, _ => False
  end.
Proof.
  apply (aggregate_order_independent sample_resource
           [infected_result "a"; clean_result "b"]
           [clean_result "b"; infected_result "a"] None).
  apply perm_swap.
Defined.

(** The resource URL and the name of a returned result come from the
    arguments alone: an OCI access gives its image reference as it is, an S3
    access gives [s3://bucket/key], any other access gives [<unknown>], and
    the name is the one passed in; the scan results play no part. *)
Theorem aggregate_resource_url (resource : cm.Resource)
    (results : list client.ScanResult) (name : option string)
    (agg : scan.AggregatedScanResult) :
  scan.aggregate_scan_result resource results name = inr agg ->
  scan.name agg = name /\
  scan.resource_url agg =
    match cm.access resource with
    | cm.OciAccess imageReference => imageReference
    | cm.S3Access bucketName objectKey =>
        ("s3://" ++ bucketName ++ "/" ++ objectKey)%string
    | cm.OtherAccess => "<unknown>"
    end.
Proof.
  intro H. apply aggregate_returns_inv in H as [_ [_ ->]].
  split; reflexivity.
Qed.

Lemma aggregate_resource_url_witness :
  let agg :=
    aggregated {| cm.access := cm.S3Access "bucket" "path/to/key" |}
      [clean_result "a"] (Some "nightly") in
  scan.name agg = Some "nightly" /\
  scan.resource_url agg = "s3://bucket/path/to/key".
Proof.
  apply (aggregate_resource_url
           {| cm.access := cm.S3Access "bucket" "path/to/key" |}
           [clean_result "a"] (Some "nightly")).
  reflexivity.
Defined.

Lemma findings_le_successes (results : list client.ScanResult) :
  (List.length (filter is_finding results)
   <= List.length (filter client.is_succeeded results))%nat.
Proof.
  induction results as [|r rest IH]; simpl; [lia|].
  unfold is_finding at 1.
  destruct (client.is_succeeded r), (client.has_malware r); simpl; lia.
Qed.

(** X5: bounds on a returned result. At least one item was scanned, there
    are no more findings than successful scans and no more successful scans
    than items, and the scanned octets are not negative when no successful
    result reports a negative number. *)
Theorem aggregate_bounds (resource : cm.Resource)
    (results : list client.ScanResult) (name : option string)
    (agg : scan.AggregatedScanResult) :
  scan.aggregate_scan_result resource results name = inr agg ->
  1 <= scan.scan_count agg /\
  Z.of_nat (List.length (scan.findings agg))
    <= Z.of_nat (List.length (filter client.is_succeeded results))
    <= scan.scan_count agg /\
  (Forall (fun m => 0 <= client.scanned_octets m) (successful_metas results)
   -> 0 <= scan.scanned_octets agg).
Proof.
  intro H. apply aggregate_returns_inv in H as [Hne [_ ->]].
  unfold aggregated.
  cbn [scan.scan_count scan.scanned_octets scan.findings].
  repeat split.
  - destruct results; [congruence | simpl List.length; lia].
  - apply Nat2Z.inj_le, findings_le_successes.
  - apply Nat2Z.inj_le, filter_length_le.
  - intro Hpos. apply sum_int_nonneg.
    apply Forall_map. exact Hpos.
Qed.

Lemma aggregate_bounds_witness :
  let results :=
    [clean_result "a"; failed_result "b"; infected_result "c"] in
  let agg := aggregated sample_resource results None in
  1 <= scan.scan_count agg /\
  Z.of_nat (List.length (scan.findings agg))
    <= Z.of_nat (List.length (filter client.is_succeeded results))
    <= scan.scan_count agg /\
  0 <= scan.scanned_octets agg.
Proof.
  destruct (aggregate_bounds sample_resource
              [clean_result "a"; failed_result "b"; infected_result "c"]
              None _ eq_refl) as [Hcount [Hfindings Hoctets]].
  split; [exact Hcount|]. split; [exact Hfindings|].
  apply Hoctets. repeat constructor; discriminate.
Defined.

(** ** [scan_tarfile] and the report *)

Lemma string_app_assoc (a b c : string) :
  ((a ++ b) ++ c = a ++ (b ++ c))%string.
Proof.
  induction a as [|ch a IH]; simpl; [reflexivity|]. now rewrite IH.
Qed.

Lemma scan_tarfile_whole (clamav_client : client.ClamAVClient)
    (tf : tarfile.TarFile) :
  existsb tarfile.unreadable (tarfile.members tf) = false ->
  let calls :=
    map member_call (filter tarfile.isfile (tarfile.members tf)) in
  scan_more.scan_tarfile clamav_client tf
  = mk_gen (map (answer clamav_client) calls) calls
      (if tarfile.bad_header tf then Raised TarError else Returned).
Proof.
  intros Hcut calls. subst calls. unfold scan_more.scan_tarfile.
  rewrite (scan_loop_whole clamav_client tf tarfile.name _ Hcut).
  unfold tarfile.damaged. rewrite Hcut, orb_false_r, map_map.
  destruct (tarfile.bad_header tf); unfold gen_seq; cbn;
    now rewrite !app_nil_r.
Qed.

Lemma scan_tarfile_cut (clamav_client : client.ClamAVClient)
    (tf : tarfile.TarFile) (before after : list tarfile.TarInfo)
    (member : tarfile.TarInfo) :
  tarfile.members tf = before ++ member :: after ->
  existsb tarfile.unreadable before = false ->
  tarfile.unreadable member = true ->
  let calls := map member_call (filter tarfile.isfile before) in
  scan_more.scan_tarfile clamav_client tf
  = mk_gen (map (answer clamav_client) calls)
      (calls ++ [member_call member]) (Raised TarError).
Proof.
  intros Hsplit Hbefore Hm calls. subst calls.
  unfold scan_more.scan_tarfile. rewrite Hsplit.
  rewrite (scan_loop_cut clamav_client tf tarfile.name before after member
             Hbefore Hm), map_map.
  reflexivity.
Qed.

Lemma filewise_call_prefixed (image_reference : string)
    (blob_reference : oci.OciBlobRef) (tar_info : tarfile.TarInfo) :
  filewise_call image_reference blob_reference tar_info
  = prefixed (image_reference ++ ":" ++ oci.digest blob_reference ++ ":")%string
      (member_call tar_info).
Proof.
  unfold filewise_call, filewise_name, prefixed, member_call.
  cbn [call_data call_name]. now rewrite !string_app_assoc.
Qed.



(** X7: the file-wise scan of a blob and [scan_tarfile] on the archive of
    that blob scan the same data in the same order and end the same way;
    the file-wise names are the member names with
    [{image_reference}:{digest}:] in front. *)
Theorem filewise_as_scan_tarfile
    (tarfile_open : list Byte.byte -> option tarfile.TarFile)
    (blob_reference : oci.OciBlobRef) (image_reference : string)
    (oci_client : oci.Client) (clamav_client : client.ClamAVClient)
    (tf : tarfile.TarFile) :
  tarfile_open
    (oci.blob oci_client image_reference (oci.digest blob_reference))
    = Some tf ->
  let filewise :=
    scan.scan_oci_blob_filewise tarfile_open blob_reference image_reference
      oci_client clamav_client in
  let plain := scan_more.scan_tarfile clamav_client tf in
  scan_calls filewise
    = map (prefixed (image_reference ++ ":" ++ oci.digest blob_reference
                       ++ ":")%string)
          (scan_calls plain)
  /\ gen_end filewise = gen_end plain.
Proof.
  intros Hopen filewise plain. subst filewise plain.
  destruct (existsb tarfile.unreadable (tarfile.members tf)) eqn:Hcut.
  - destruct (unreadable_split _ Hcut) as [b [m [a [Hsplit [Hb Hm]]]]].
    rewrite (scan_oci_blob_filewise_cut tarfile_open blob_reference
               image_reference oci_client clamav_client tf b a m
               Hopen Hsplit Hb Hm),
      (scan_tarfile_cut clamav_client tf b a m Hsplit Hb Hm).
    cbn [scan_calls gen_end]. split; [|reflexivity].
    rewrite map_app, map_map. cbn [map].
    rewrite <- filewise_call_prefixed. f_equal.
    apply map_ext. intro ti. apply filewise_call_prefixed.
  - rewrite (scan_oci_blob_filewise_whole tarfile_open blob_reference
               image_reference oci_client clamav_client tf Hopen Hcut),
      (scan_tarfile_whole clamav_client tf Hcut).
    cbn [scan_calls gen_end]. split; [|reflexivity].
    rewrite map_map. apply map_ext. intro ti. apply filewise_call_prefixed.
Qed.

Lemma filewise_as_scan_tarfile_witness :
  let filewise :=
    scan.scan_oci_blob_filewise sample_tarfile_open (layer "sha256:a1")
      "registry.example/one:1.0" sample_registry quiet_clamav in
  let plain := scan_more.scan_tarfile quiet_clamav sample_archive in
  scan_calls filewise
    = map (prefixed "registry.example/one:1.0:sha256:a1:") (scan_calls plain)
  /\ gen_end filewise = gen_end plain.
Proof.
  apply (filewise_as_scan_tarfile sample_tarfile_open (layer "sha256:a1")
           "registry.example/one:1.0" sample_registry quiet_clamav
           sample_archive).
  reflexivity.
Defined.

(** X8: the row of the report for an aggregated result. The resource is
    [component/artifact]; the details are [failed to scan] as soon as one
    scan failed, whatever was found; without a failure they are the lines
    [name: details] of the results that report malware, in scan order, one
    per line; and [no malware found] when there are none. *)
Theorem report_row_of_aggregate (resource : cm.Resource)
    (results : list client.ScanResult) (name : option string)
    (agg : scan.AggregatedScanResult) (component artifact : string) :
  scan.aggregate_scan_result resource results name = inr agg ->
  report.row_from_result
    {| report.component_name := component;
       report.artifact_name := artifact;
       report.scan_result := agg |}
  = ((component ++ "/" ++ artifact)%string,
     scan.malware_status agg,
     if existsb client.is_failed results then "failed to scan"
     else if existsb client.has_malware results
          then String.concat scan_more.newline
                 (map finding_line (filter client.has_malware results))
          else "no malware found").
Proof.
  intro H. apply aggregate_returns_inv in H as [_ [_ ->]].
  unfold report.row_from_result, aggregated.
  cbn [report.component_name report.artifact_name report.scan_result
       scan.malware_status scan.findings].
  destruct (existsb client.is_failed results) eqn:Hf; [reflexivity|].
  rewrite (malware_without_failure results Hf),
    (findings_without_failure results Hf).
  destruct (existsb client.has_malware results); reflexivity.
Qed.

Lemma report_row_of_aggregate_witness :
  report.row_from_result
    {| report.component_name := "example.org/component";
       report.artifact_name := "image";
       report.scan_result :=
         aggregated sample_resource
           [infected_result "a"; clean_result "b"; infected_result "c"]
           None |}
  = ("example.org/component/image",
     client.FOUND_MALWARE,
     ("a: Eicar-Signature FOUND" ++ scan_more.newline
        ++ "c: Eicar-Signature FOUND")%string).
Proof.
  apply (report_row_of_aggregate sample_resource
           [infected_result "a"; clean_result "b"; infected_result "c"]
           None
           (aggregated sample_resource
              [infected_result "a"; clean_result "b"; infected_result "c"]
              None)
           "example.org/component" "image").
  reflexivity.
Defined.

(** ** [sorted] and the last element *)

Lemma insert_sorted_permutation {A} (key : A -> nat) (x : A) (l : list A) :
  Permutation (insert_sorted key x l) (x :: l).
Proof.
  induction l as [|y rest IH]; simpl; [reflexivity|].
  destruct (key x <=? key y)%nat; [reflexivity|].
  rewrite IH. apply perm_swap.
Qed.

Lemma sorted_permutation {A} (key : A -> nat) (l : list A) :
  Permutation (sorted key l) l.
Proof.
  induction l as [|x rest IH]; simpl; [reflexivity|].
  rewrite insert_sorted_permutation. now constructor.
Qed.

Lemma insert_sorted_ordered {A} (key : A -> nat) (x : A) (l : list A) :
  StronglySorted (fun a b => (key a <= key b)%nat) l ->
  StronglySorted (fun a b => (key a <= key b)%nat) (insert_sorted key x l).
Proof.
  induction 1 as [|y rest Hrest IH Hy]; simpl.
  - repeat constructor.
  - destruct (key x <=? key y)%nat eqn:Hxy.
    + apply Nat.leb_le in Hxy. constructor.
      * now constructor.
      * constructor; [exact Hxy|].
        eapply Forall_impl; [|exact Hy]. cbn. intros. lia.
    + apply Nat.leb_gt in Hxy. constructor; [exact IH|].
      eapply Permutation_Forall.
      * symmetry. apply insert_sorted_permutation.
      * constructor; [lia | exact Hy].
Qed.

Lemma sorted_ordered {A} (key : A -> nat) (l : list A) :
  StronglySorted (fun a b => (key a <= key b)%nat) (sorted key l).
Proof.
  induction l as [|x rest IH]; simpl; [constructor|].
  now apply insert_sorted_ordered.
Qed.

(** [sorted] keeps the elements of equal key in their order. *)
Lemma sorted_stable {A} (key : A -> nat) (k : nat) (l : list A) :
  filter (fun a => (key a =? k)%nat) (sorted key l)
  = filter (fun a => (key a =? k)%nat) l.
Proof.
  induction l as [|x rest IH]; simpl; [reflexivity|].
  rewrite <- IH. generalize (sorted key rest) as s. clear IH.
  induction s as [|y s' IHs]; simpl; [reflexivity|].
  destruct (key x <=? key y)%nat eqn:Hxy; simpl; [reflexivity|].
  apply Nat.leb_gt in Hxy. rewrite IHs.
  destruct (key x =? k)%nat eqn:Hx, (key y =? k)%nat eqn:Hy;
    try reflexivity.
  apply Nat.eqb_eq in Hx, Hy. lia.
Qed.

Lemma last_element_cons {A} (x : A) (l : list A) :
  last_element (x :: l)
  = match last_element l with None => Some x | Some m => Some m end.
Proof.
  destruct l as [|y rest]; [reflexivity|].
  cbn [last_element].
  destruct rest as [|z rest']; [reflexivity|].
  destruct (last_element (z :: rest')) eqn:Hl; [reflexivity|].
  exfalso. revert z Hl. induction rest' as [|w r IHr]; intros z Hl.
  - discriminate Hl.
  - cbn [last_element] in Hl. exact (IHr w Hl).
Qed.

Lemma last_element_in {A} (l : list A) (m : A) :
  last_element l = Some m -> In m l.
Proof.
  induction l as [|x rest IH]; [discriminate|].
  rewrite last_element_cons.
  destruct (last_element rest) as [m'|].
  - intros [= <-]. right. now apply IH.
  - intros [= <-]. now left.
Qed.

Lemma last_insert_sorted {A} (key : A -> nat) (x : A) (s : list A) :
  StronglySorted (fun a b => (key a <= key b)%nat) s ->
  last_element (insert_sorted key x s)
  = Some match last_element s with
         | None => x
         | Some m => if (key x <=? key m)%nat then m else x
         end.
Proof.
  induction 1 as [|y rest Hrest IH Hy].
  - reflexivity.
  - cbn [insert_sorted].
    destruct (key x <=? key y)%nat eqn:Hxy.
    + rewrite (last_element_cons x (y :: rest)).
      destruct (last_element (y :: rest)) as [m|] eqn:Hl.
      * assert (Hm : (key y <= key m)%nat).
        { rewrite last_element_cons in Hl.
          destruct (last_element rest) as [m'|] eqn:Hl'.
          - injection Hl as <-.
            apply last_element_in in Hl'.
            rewrite Forall_forall in Hy. exact (Hy _ Hl').
          - injection Hl as <-. lia. }
        apply Nat.leb_le in Hxy.
        assert (Hxm : (key x <=? key m)%nat = true)
          by (apply Nat.leb_le; lia).
        now rewrite Hxm.
      * rewrite last_element_cons in Hl.
        destruct (last_element rest); discriminate Hl.
    + rewrite (last_element_cons y (insert_sorted key x rest)), IH.
      rewrite (last_element_cons y rest).
      destruct (last_element rest) as [m|]; [reflexivity|].
      now rewrite Hxy.
Qed.

Lemma last_sorted {A} (key : A -> nat) (l : list A) :
  forall x, last_element (sorted key (x :: l))
            = Some (rightmost_max key x l).
Proof.
  induction l as [|y rest IH]; intro x; [reflexivity|].
  change (sorted key (x :: y :: rest))
    with (insert_sorted key x (sorted key (y :: rest))).
  rewrite (last_insert_sorted key x _ (sorted_ordered key (y :: rest))),
    (IH y).
  reflexivity.
Qed.

Lemma rightmost_max_split {A} (key : A -> nat) (l : list A) :
  forall x, exists before after,
    x :: l = before ++ rightmost_max key x l :: after /\
    Forall (fun d => (key d <= key (rightmost_max key x l))%nat) before /\
    Forall (fun d => (key d < key (rightmost_max key x l))%nat) after.
Proof.
  induction l as [|y rest IH]; intro x.
  - exists [], []. repeat split; constructor.
  - destruct (IH y) as [b [a [Hsplit [Hb Ha]]]].
    cbn [rightmost_max].
    destruct (key x <=? key (rightmost_max key y rest))%nat eqn:Hx.
    + apply Nat.leb_le in Hx.
      exists (x :: b), a. repeat split.
      * cbn [app]. now rewrite Hsplit.
      * now constructor.
      * exact Ha.
    + apply Nat.leb_gt in Hx.
      exists [], (y :: rest). repeat split; [constructor|].
      rewrite Hsplit. apply Forall_app. split.
      * eapply Forall_impl; [|exact Hb]. cbn. intros. lia.
      * constructor; [exact Hx|].
        eapply Forall_impl; [|exact Ha]. cbn. intros. lia.
Qed.

(** ** [ccc/github.py]: which configuration is chosen *)

Lemma missing_labels_present (require_labels : ccc_github.labels)
    (github_cfg : ccc_github.GithubConfig) :
  (ccc_github.truthy require_labels
   && match ccc_github.missing_labels require_labels github_cfg with
      | [] => false
      | _ :: _ => true
      end)%bool
  = negb (labels_present require_labels github_cfg).
Proof.
  unfold ccc_github.truthy, ccc_github.missing_labels, labels_present.
  induction (ccc_github.elements require_labels) as [|l rest IH];
    [reflexivity|].
  cbn [filter forallb andb].
  destruct (ccc_github.has_label github_cfg l); cbn [negb andb].
  - destruct rest as [|l' rest']; [reflexivity | exact IH].
  - reflexivity.
Qed.

Lemma for_cfg_elements_filter (cfg_elements : list ccc_github.GithubConfig)
    (require_labels : ccc_github.labels) (repo_url : string) :
  forall matching_cfgs,
    ccc_github.for_cfg_elements cfg_elements require_labels repo_url
      matching_cfgs
    = matching_cfgs
      ++ filter (serves_repo_url require_labels repo_url) cfg_elements.
Proof.
  induction cfg_elements as [|c rest IH]; intro acc;
    cbn [ccc_github.for_cfg_elements filter].
  - now rewrite app_nil_r.
  - rewrite missing_labels_present. unfold serves_repo_url at 1.
    destruct (labels_present require_labels c); cbn [negb andb].
    + destruct (ccc_github.matches_repo_url c repo_url).
      * now rewrite IH, <- app_assoc.
      * apply IH.
    + apply IH.
Qed.

Lemma has_required_labels_present (require_labels : ccc_github.labels)
    (github_cfg : ccc_github.GithubConfig) :
  ccc_github.has_required_labels require_labels github_cfg
  = labels_present require_labels github_cfg.
Proof.
  unfold ccc_github.has_required_labels, labels_present, ccc_github.truthy.
  destruct require_labels as [s|t]; cbn [ccc_github.elements];
    [destruct (ccc_github.characters s) | destruct t]; reflexivity.
Qed.

(** What [github_cfg_for_repo_url] gives, in terms of the configurations
    that serve the URL. *)
Lemma github_cfg_for_repo_url_spec
    (cfg_elements : list ccc_github.GithubConfig) (repo_url : string)
    (require_labels : ccc_github.labels) :
  ccc_github.github_cfg_for_repo_url cfg_elements repo_url require_labels
  = match filter (serves_repo_url require_labels repo_url) cfg_elements with
    | [] => inl (ccc_github.ConfigElementNotFoundError repo_url)
    | c :: rest => inr (rightmost_max url_count c rest)
    end.
Proof.
  unfold ccc_github.github_cfg_for_repo_url.
  rewrite for_cfg_elements_filter. cbn [app].
  fold url_count.
  change (fun config => List.length (ccc_github.repo_urls config))
    with url_count.
  rewrite (Permutation_length (sorted_permutation url_count _)).
  destruct (filter (serves_repo_url require_labels repo_url) cfg_elements)
    as [|c rest]; [reflexivity|].
  cbn [List.length Nat.eqb]. now rewrite last_sorted.
Qed.

(** X9: the configuration that [github_cfg_for_repo_url] returns is one of
    the configured elements, carries the required labels and matches the
    URL; among all such elements it has the most repository URLs, and of
    several with that many it is the one configured last. *)
Theorem github_cfg_for_repo_url_prefers_most_urls
    (cfg_elements : list ccc_github.GithubConfig) (repo_url : string)
    (require_labels : ccc_github.labels) (gh_cfg : ccc_github.GithubConfig) :
  ccc_github.github_cfg_for_repo_url cfg_elements repo_url require_labels
    = inr gh_cfg ->
  In gh_cfg cfg_elements /\
  serves_repo_url require_labels repo_url gh_cfg = true /\
  exists before after,
    filter (serves_repo_url require_labels repo_url) cfg_elements
      = before ++ gh_cfg :: after /\
    Forall (fun c => (url_count c <= url_count gh_cfg)%nat) before /\
    Forall (fun c => (url_count c < url_count gh_cfg)%nat) after.
Proof.
  rewrite github_cfg_for_repo_url_spec.
  destruct (filter (serves_repo_url require_labels repo_url) cfg_elements)
    as [|c rest] eqn:Hf; [discriminate|].
  intros [= <-].
  destruct (rightmost_max_split url_count rest c)
    as [before [after [Hsplit [Hb Ha]]]].
  assert (Hin : In (rightmost_max url_count c rest)
                   (filter (serves_repo_url require_labels repo_url)
                      cfg_elements)).
  { rewrite Hf, Hsplit. apply in_or_app. right. now left. }
  apply filter_In in Hin as [Hin Hserves].
  repeat split; try assumption.
  exists before, after. repeat split; assumption.
Qed.

Lemma github_cfg_for_repo_url_prefers_most_urls_witness :
  let gh_cfg :=
    sample_cfg "wide" ["ci"; "pr"] ["github.com"; "github.example"] in
  In gh_cfg sample_cfgs /\
  serves_repo_url (ccc_github.LabelTuple ["ci"])
    "github.com/org/repo" gh_cfg = true /\
  exists before after,
    filter (serves_repo_url (ccc_github.LabelTuple ["ci"])
              "github.com/org/repo") sample_cfgs
      = before ++ gh_cfg :: after /\
    Forall (fun c => (url_count c <= url_count gh_cfg)%nat) before /\
    Forall (fun c => (url_count c < url_count gh_cfg)%nat) after.
Proof.
  apply (github_cfg_for_repo_url_prefers_most_urls sample_cfgs
           "github.com/org/repo" (ccc_github.LabelTuple ["ci"])).
  reflexivity.
Defined.

(** X10: [github_cfg_for_repo_url] raises [ConfigElementNotFoundError]
    exactly when no configured element carries the required labels and
    matches the URL; otherwise it returns a configuration. Reading the last
    element never fails. *)
Theorem github_cfg_for_repo_url_not_found
    (cfg_elements : list ccc_github.GithubConfig) (repo_url : string)
    (require_labels : ccc_github.labels) :
  (existsb (serves_repo_url require_labels repo_url) cfg_elements = false ->
   ccc_github.github_cfg_for_repo_url cfg_elements repo_url require_labels
     = inl (ccc_github.ConfigElementNotFoundError repo_url))
  /\
  (existsb (serves_repo_url require_labels repo_url) cfg_elements = true ->
   exists gh_cfg,
     ccc_github.github_cfg_for_repo_url cfg_elements repo_url require_labels
       = inr gh_cfg)
  /\
  ccc_github.github_cfg_for_repo_url cfg_elements repo_url require_labels
    <> inl ccc_github.IndexError.
Proof.
  rewrite github_cfg_for_repo_url_spec.
  pose proof (filter_nil_existsb (serves_repo_url require_labels repo_url)
                cfg_elements) as Hnil.
  destruct (filter (serves_repo_url require_labels repo_url) cfg_elements)
    as [|c rest].
  - repeat split; try discriminate.
    intro H. rewrite (proj1 Hnil eq_refl) in H. discriminate H.
  - repeat split; try discriminate.
    + intro H. apply Hnil in H. discriminate H.
    + intros _. eexists. reflexivity.
Qed.

Lemma github_cfg_for_repo_url_not_found_witness :
  ccc_github.github_cfg_for_repo_url sample_cfgs "bitbucket.example/org/repo"
    (ccc_github.LabelTuple ["ci"])
  = inl (ccc_github.ConfigElementNotFoundError "bitbucket.example/org/repo")
  /\
  exists gh_cfg,
    ccc_github.github_cfg_for_repo_url sample_cfgs "github.com/org/repo"
      (ccc_github.LabelTuple ["ci"])
    = inr gh_cfg.
Proof.
  split.
  - apply (proj1 (github_cfg_for_repo_url_not_found sample_cfgs
                    "bitbucket.example/org/repo"
                    (ccc_github.LabelTuple ["ci"]))).
    reflexivity.
  - apply (proj1 (proj2 (github_cfg_for_repo_url_not_found sample_cfgs
                           "github.com/org/repo"
                           (ccc_github.LabelTuple ["ci"])))).
    reflexivity.
Defined.

Lemma first_for_hostname_split (cfgs : list ccc_github.GithubConfig)
    (host_name : string) :
  match ccc_github.first_for_hostname cfgs host_name with
  | Some c =>
      exists before after,
        cfgs = before ++ c :: after /\
        ccc_github.matches_hostname c host_name = true /\
        Forall (fun d => ccc_github.matches_hostname d host_name = false)
               before
  | None =>
      Forall (fun d => ccc_github.matches_hostname d host_name = false) cfgs
  end.
Proof.
  induction cfgs as [|c rest IH]; cbn [ccc_github.first_for_hostname].
  - constructor.
  - destruct (ccc_github.matches_hostname c host_name) eqn:Hc.
    + exists [], rest. repeat split; [exact Hc | constructor].
    + destruct (ccc_github.first_for_hostname rest host_name) as [d|].
      * destruct IH as [b [a [-> [Hd Hb]]]].
        exists (c :: b), a. repeat split; [exact Hd | now constructor].
      * now constructor.
Qed.

Lemma filter_split_first {A} (p : A -> bool) (l before after : list A)
    (c : A) :
  filter p l = before ++ c :: after ->
  exists l1 l2,
    l = l1 ++ c :: l2 /\ filter p l1 = before /\ filter p l2 = after.
Proof.
  revert before. induction l as [|x rest IH]; intros before H;
    cbn [filter] in H.
  - destruct before; discriminate H.
  - destruct (p x) eqn:Hx.
    + destruct before as [|b before'].
      * cbn [app] in H. injection H as -> Hrest.
        exists [], rest. repeat split. exact Hrest.
      * cbn [app] in H. injection H as -> Hrest.
        destruct (IH before' Hrest) as [l1 [l2 [-> [H1 H2]]]].
        exists (b :: l1), l2. repeat split; [|exact H2].
        cbn [filter]. now rewrite Hx, H1.
    + destruct (IH before H) as [l1 [l2 [-> [H1 H2]]]].
      exists (x :: l1), l2. repeat split; [|exact H2].
      cbn [filter]. now rewrite Hx.
Qed.

(** X11: [github_cfg_for_hostname] returns the first configured element, in
    the order of the configuration, that carries the required labels and
    matches the host name, however many repository URLs the later ones
    have; it raises [RuntimeError] exactly when there is none. *)
Theorem github_cfg_for_hostname_first
    (cfg_elements : list ccc_github.GithubConfig) (host_name : string)
    (require_labels : ccc_github.labels) :
  (forall github_cfg,
     ccc_github.github_cfg_for_hostname cfg_elements host_name require_labels
       = inr github_cfg ->
     exists before after,
       cfg_elements = before ++ github_cfg :: after /\
       serves_hostname require_labels host_name github_cfg = true /\
       Forall (fun c => serves_hostname require_labels host_name c = false)
              before)
  /\
  (existsb (serves_hostname require_labels host_name) cfg_elements = false
   <->
   ccc_github.github_cfg_for_hostname cfg_elements host_name require_labels
     = inl (ccc_github.RuntimeError host_name)).
Proof.
  unfold ccc_github.github_cfg_for_hostname.
  rewrite (filter_ext _ _ (has_required_labels_present require_labels)).
  pose proof (first_for_hostname_split
                (filter (labels_present require_labels) cfg_elements)
                host_name) as Hfirst.
  destruct (ccc_github.first_for_hostname
              (filter (labels_present require_labels) cfg_elements)
              host_name) as [c|].
  - destruct Hfirst as [b [a [Hsplit [Hc Hb]]]].
    destruct (filter_split_first _ _ _ _ _ Hsplit)
      as [l1 [l2 [Hl [Hb1 _]]]].
    assert (Hlab : labels_present require_labels c = true).
    { assert (Hin : In c (filter (labels_present require_labels)
                            cfg_elements))
        by (rewrite Hsplit; apply in_or_app; right; now left).
      now apply filter_In in Hin. }
    assert (Hserves : serves_hostname require_labels host_name c = true)
      by (unfold serves_hostname; now rewrite Hlab, Hc).
    split.
    + intros github_cfg [= <-]. exists l1, l2.
      repeat split; [exact Hl | exact Hserves |].
      apply Forall_forall. intros d Hd. unfold serves_hostname.
      destruct (labels_present require_labels d) eqn:Hld; [|reflexivity].
      cbn [andb]. rewrite Forall_forall in Hb. apply Hb.
      rewrite <- Hb1. apply filter_In. now split.
    + split; [|discriminate].
      intro Hnone. exfalso.
      assert (Hex : existsb (serves_hostname require_labels host_name)
                      cfg_elements = true).
      { apply existsb_exists. exists c. split; [|exact Hserves].
        rewrite Hl. apply in_or_app. right. now left. }
      congruence.
  - split; [discriminate|].
    split; [reflexivity|]. intros _.
    destruct (existsb (serves_hostname require_labels host_name)
                cfg_elements) eqn:Hex; [|reflexivity].
    apply existsb_exists in Hex as [d [Hd Hs]].
    unfold serves_hostname in Hs. apply andb_prop in Hs as [Hl Hm].
    rewrite Forall_forall in Hfirst.
    rewrite (Hfirst d) in Hm; [discriminate Hm|].
    apply filter_In. now split.
Qed.

Lemma github_cfg_for_hostname_first_witness :
  exists before after,
    sample_cfgs
      = before ++ sample_cfg "narrow" ["ci"] ["github.com"] :: after /\
    serves_hostname (ccc_github.LabelTuple ["ci"]) "github.com"
      (sample_cfg "narrow" ["ci"] ["github.com"]) = true /\
    Forall (fun c => serves_hostname (ccc_github.LabelTuple ["ci"])
                       "github.com" c = false) before.
Proof.
  apply (proj1 (github_cfg_for_hostname_first sample_cfgs "github.com"
                  (ccc_github.LabelTuple ["ci"]))).
  reflexivity.
Defined.

(** ** [concourse/util.py]: finding the own build *)

Section OwnBuild.

Variable CfgSet : Type.
Variable env : concourse_util.Environment CfgSet.

Lemma get_pipeline_metadata_inv (pm : concourse_util.PipelineMetaData) :
  concourse_util.get_pipeline_metadata CfgSet env = inr pm ->
  concourse_util.running_on_ci env = true /\
  concourse_util.check_env env "CONCOURSE_CURRENT_CFG"
    = inr (concourse_util.current_config_set_name pm).
Proof.
  unfold concourse_util.get_pipeline_metadata.
  destruct (concourse_util.running_on_ci env); [|discriminate].
  cbn [negb].
  destruct (concourse_util.check_env env "CONCOURSE_CURRENT_CFG");
    [discriminate|].
  destruct (concourse_util.check_env env "CONCOURSE_CURRENT_TEAM");
    [discriminate|].
  destruct (concourse_util.check_env env "PIPELINE_NAME"); [discriminate|].
  destruct (concourse_util.check_env env "BUILD_JOB_NAME"); [discriminate|].
  intros [= <-]. split; reflexivity.
Qed.

(** Once the surroundings have answered, the function is its loop over the
    considered builds. *)
Lemma find_own_running_build_loop
    (cfg_factory : option (string -> CfgSet))
    (pm : concourse_util.PipelineMetaData) (file own : string) :
  concourse_util.get_pipeline_metadata CfgSet env = inr pm ->
  concourse_util.meta_info_file_from_env CfgSet env = inr file ->
  concourse_util.read_meta_uuid env file = inr own ->
  concourse_util.find_own_running_build CfgSet env cfg_factory
  = concourse_util.for_builds CfgSet env (considered env cfg_factory pm) own.
Proof.
  intros Hpm Hfile Hown.
  destruct (get_pipeline_metadata_inv pm Hpm) as [Hci Hcfg].
  unfold concourse_util.find_own_running_build.
  rewrite Hci, Hfile, Hown. cbn [negb].
  destruct cfg_factory as [factory|]; [rewrite Hcfg|]; now rewrite Hpm.
Qed.

Lemma for_builds_outcome (own : string) (builds : list concourse_util.Build) :
  match concourse_util.for_builds CfgSet env builds own with
  | inr build =>
      exists before after,
        builds = before ++ build :: after /\
        concourse_util.meta_of CfgSet env build
          = concourse_util.JsonWithUuid own /\
        forallb (passed_over env own) before = true
  | inl (concourse_util.RuntimeError msg) =>
      msg = "Could not determine own Concourse job." /\
      forallb (passed_over env own) builds = true
  | inl concourse_util.SubscriptError =>
      exists before build after,
        builds = before ++ build :: after /\
        concourse_util.meta_of CfgSet env build
          = concourse_util.JsonWithoutUuid /\
        forallb (passed_over env own) before = true
  | inl _ => False
  end.
Proof.
  induction builds as [|b rest IH]; cbn [concourse_util.for_builds].
  - split; reflexivity.
  - destruct (concourse_util.meta_of CfgSet env b) as [| |uuid] eqn:Hb.
    + destruct (concourse_util.for_builds CfgSet env rest own)
        as [[msg| | |]|build].
      * destruct IH as [-> Hall]. split; [reflexivity|].
        cbn [forallb]. unfold passed_over at 1. now rewrite Hb.
      * destruct IH as [bf [bd [af [-> [Hbd Hbf]]]]].
        exists (b :: bf), bd, af. repeat split; [exact Hbd|].
        cbn [forallb]. unfold passed_over at 1. now rewrite Hb.
      * exact IH.
      * exact IH.
      * destruct IH as [bf [af [-> [Hbd Hbf]]]].
        exists (b :: bf), af. repeat split; [exact Hbd|].
        cbn [forallb]. unfold passed_over at 1. now rewrite Hb.
    + exists [], b, rest. repeat split. exact Hb.
    + destruct (String.eqb uuid own) eqn:Hu.
      * apply String.eqb_eq in Hu. subst uuid.
        exists [], rest. repeat split. exact Hb.
      * destruct (concourse_util.for_builds CfgSet env rest own)
          as [[msg| | |]|build].
        -- destruct IH as [-> Hall]. split; [reflexivity|].
           cbn [forallb]. unfold passed_over at 1. now rewrite Hb, Hu.
        -- destruct IH as [bf [bd [af [-> [Hbd Hbf]]]]].
           exists (b :: bf), bd, af. repeat split; [exact Hbd|].
           cbn [forallb]. unfold passed_over at 1. now rewrite Hb, Hu.
        -- exact IH.
        -- exact IH.
        -- destruct IH as [bf [af [-> [Hbd Hbf]]]].
           exists (b :: bf), af. repeat split; [exact Hbd|].
           cbn [forallb]. unfold passed_over at 1. now rewrite Hb, Hu.
Qed.

(** X12: the build that [find_own_running_build] returns is running, is
    one of the first 20 running builds of the job, printed the uuid of the
    meta file, and is the first such build: every considered build before
    it printed something that is not JSON, or another uuid. *)
Theorem find_own_running_build_first
    (cfg_factory : option (string -> CfgSet))
    (pm : concourse_util.PipelineMetaData) (file own : string)
    (build : concourse_util.Build) :
  concourse_util.get_pipeline_metadata CfgSet env = inr pm ->
  concourse_util.meta_info_file_from_env CfgSet env = inr file ->
  concourse_util.read_meta_uuid env file = inr own ->
  concourse_util.find_own_running_build CfgSet env cfg_factory = inr build ->
  concourse_util.is_running build = true /\
  concourse_util.meta_of CfgSet env build = concourse_util.JsonWithUuid own /\
  exists before after,
    considered env cfg_factory pm = before ++ build :: after /\
    (List.length before < 20)%nat /\
    forallb (passed_over env own) before = true.
Proof.
  intros Hpm Hfile Hown Hfind.
  rewrite (find_own_running_build_loop cfg_factory pm file own Hpm Hfile Hown)
    in Hfind.
  pose proof (for_builds_outcome own (considered env cfg_factory pm)) as Hout.
  rewrite Hfind in Hout. destruct Hout as [bf [af [Hsplit [Hmeta Hbf]]]].
  split.
  - unfold considered in Hsplit.
    assert (Hin' : In build
              (filter concourse_util.is_running
                 (concourse_util.job_builds env (concourse_util.team_name pm)
                    (option_map
                       (fun factory =>
                          factory (concourse_util.current_config_set_name pm))
                       cfg_factory)
                    (concourse_util.pipeline_name pm)
                    (concourse_util.job_name pm)))).
    { rewrite <- (firstn_skipn concourse_util.consider_builds).
      apply in_or_app. left. rewrite Hsplit.
      apply in_or_app. right. now left. }
    now apply filter_In in Hin'.
  - split; [exact Hmeta|]. exists bf, af. repeat split; [exact Hsplit| |exact Hbf].
    assert (Hlen : (List.length (considered env cfg_factory pm) <= 20)%nat)
      by (unfold considered; apply firstn_le_length).
    rewrite Hsplit, length_app in Hlen. cbn [List.length] in Hlen. lia.
Qed.

(** X13: [find_own_running_build] raises the [RuntimeError] for an
    undetermined job exactly when every considered build printed something
    that is not JSON or another uuid; a considered build that printed JSON
    without a uuid, with only such builds before it, ends the search with
    the error of the failed subscript, which is not caught. *)
Theorem find_own_running_build_not_found
    (cfg_factory : option (string -> CfgSet))
    (pm : concourse_util.PipelineMetaData) (file own : string) :
  concourse_util.get_pipeline_metadata CfgSet env = inr pm ->
  concourse_util.meta_info_file_from_env CfgSet env = inr file ->
  concourse_util.read_meta_uuid env file = inr own ->
  (forallb (passed_over env own) (considered env cfg_factory pm) = true <->
   concourse_util.find_own_running_build CfgSet env cfg_factory
     = inl (concourse_util.RuntimeError
              "Could not determine own Concourse job."))
  /\
  (forall before build after,
     considered env cfg_factory pm = before ++ build :: after ->
     forallb (passed_over env own) before = true ->
     concourse_util.meta_of CfgSet env build
       = concourse_util.JsonWithoutUuid ->
     concourse_util.find_own_running_build CfgSet env cfg_factory
       = inl concourse_util.SubscriptError).
Proof.
  intros Hpm Hfile Hown.
  rewrite (find_own_running_build_loop cfg_factory pm file own Hpm Hfile Hown).
  generalize (considered env cfg_factory pm) as builds. intro builds.
  split.
  - induction builds as [|b rest IH]; cbn [concourse_util.for_builds forallb].
    + split; reflexivity.
    + unfold passed_over at 1.
      destruct (concourse_util.meta_of CfgSet env b) as [| |uuid];
        cbn [andb negb].
      * exact IH.
      * split; discriminate.
      * destruct (String.eqb uuid own); cbn [andb negb];
          [split; discriminate | exact IH].
  - intros before build after -> Hbefore Hmeta.
    induction before as [|b rest IH]; cbn [app concourse_util.for_builds].
    + now rewrite Hmeta.
    + cbn [forallb] in Hbefore. apply andb_prop in Hbefore as [Hb Hrest].
      unfold passed_over in Hb.
      destruct (concourse_util.meta_of CfgSet env b) as [| |uuid];
        [exact (IH Hrest) | discriminate Hb |].
      destruct (String.eqb uuid own); [discriminate Hb | exact (IH Hrest)].
Qed.

(** X14: only the first 20 running builds are looked at. When the job has
    20 or more running builds, no build after the twentieth of them plays a
    part, the own build included. *)
Theorem find_own_running_build_considers_20
    (cfg_factory : option (string -> CfgSet))
    (pm : concourse_util.PipelineMetaData) (file own : string)
    (builds later : list concourse_util.Build) :
  concourse_util.get_pipeline_metadata CfgSet env = inr pm ->
  concourse_util.meta_info_file_from_env CfgSet env = inr file ->
  concourse_util.read_meta_uuid env file = inr own ->
  concourse_util.job_builds env (concourse_util.team_name pm)
    (option_map (fun factory =>
                   factory (concourse_util.current_config_set_name pm))
                cfg_factory)
    (concourse_util.pipeline_name pm) (concourse_util.job_name pm)
    = builds ++ later ->
  (20 <= List.length (filter concourse_util.is_running builds))%nat ->
  concourse_util.find_own_running_build CfgSet env cfg_factory
  = concourse_util.for_builds CfgSet env
      (firstn 20 (filter concourse_util.is_running builds)) own.
Proof.
  intros Hpm Hfile Hown Hjobs Hlen.
  rewrite (find_own_running_build_loop cfg_factory pm file own Hpm Hfile Hown).
  unfold considered, concourse_util.consider_builds.
  rewrite Hjobs, filter_app, firstn_app.
  replace (20 - List.length (filter concourse_util.is_running builds))%nat
    with 0%nat by lia.
  cbn [firstn]. now rewrite app_nil_r.
Qed.

End OwnBuild.

Lemma find_own_running_build_first_witness :
  let env :=
    sample_environment
      [ sample_build 1 false "own"; sample_build 2 true "";
        sample_build 3 true "other"; sample_build 4 true "own";
        sample_build 5 true "own" ] in
  let build := sample_build 4 true "own" in
  concourse_util.is_running build = true /\
  concourse_util.meta_of unit env build = concourse_util.JsonWithUuid "own" /\
  exists before after,
    considered env None sample_pipeline_metadata = before ++ build :: after /\
    (List.length before < 20)%nat /\
    forallb (passed_over env "own") before = true.
Proof.
  apply (find_own_running_build_first unit
           (sample_environment
              [ sample_build 1 false "own"; sample_build 2 true "";
                sample_build 3 true "other"; sample_build 4 true "own";
                sample_build 5 true "own" ])
           None sample_pipeline_metadata "CC_ROOT_DIR" "own"
           (sample_build 4 true "own")); reflexivity.
Defined.

Lemma find_own_running_build_not_found_witness :
  concourse_util.find_own_running_build unit
    (sample_environment
       [sample_build 1 false "own"; sample_build 2 true "other"]) None
  = inl (concourse_util.RuntimeError "Could not determine own Concourse job.").
Proof.
  apply (proj1 (proj1 (find_own_running_build_not_found unit
                         (sample_environment
                            [ sample_build 1 false "own";
                              sample_build 2 true "other" ])
                         None sample_pipeline_metadata "CC_ROOT_DIR" "own"
                         eq_refl eq_refl eq_refl))).
  reflexivity.
Defined.

Lemma find_own_running_build_considers_20_witness :
  let env :=
    sample_environment (other_builds 20 ++ [sample_build 21 true "own"]) in
  concourse_util.find_own_running_build unit env None
  = concourse_util.for_builds unit env
      (firstn 20 (filter concourse_util.is_running (other_builds 20))) "own".
Proof.
  apply (find_own_running_build_considers_20 unit
           (sample_environment
              (other_builds 20 ++ [sample_build 21 true "own"]))
           None sample_pipeline_metadata "CC_ROOT_DIR" "own"
           (other_builds 20) [sample_build 21 true "own"]);
    reflexivity.
Defined.

(** ** [concourse/util.py]: the organization webhooks *)

Section OrgWebhooks.

Variable cfg_factory : webhooks.ConfigFactory.
Variable github_api : webhooks.GithubConfig -> webhooks.GithubApi.
Variable create_url_from_attributes :
  string -> string -> string -> string -> string -> string -> string.
Variable DEFAULT_ORG_HOOK_QUERY_KEY : string.
Variable urlparse_hostname : string -> option string.
Variable create_or_update_org_hook : webhooks.HookCall -> bool.

(** X15: every webhook that [_enumerate_required_org_webhooks] yields for a
    dispatcher carries the same URL, built from the dispatcher's external
    URL and its configuration name; and each belongs to an organization of
    a job mapping of one of the dispatcher's concourses whose GitHub is
    accessible from that concourse. *)
Theorem enumerate_required_org_webhooks_sound
    (whd_deployment_cfg : webhooks.WebhookDispatcherDeploymentConfig) :
  Forall (fun hook =>
    snd hook
      = dispatcher_webhook_url create_url_from_attributes
          DEFAULT_ORG_HOOK_QUERY_KEY whd_deployment_cfg
    /\
    exists concourse_cfg_name item github_org_config,
      In concourse_cfg_name
        (webhooks.concourse_config_names
           (webhooks.webhook_dispatcher cfg_factory
              (webhooks.webhook_dispatcher_config_name whd_deployment_cfg)))
      /\
      In item
        (webhooks.job_mappings
           (webhooks.job_mapping cfg_factory
              (webhooks.job_mapping_cfg_name
                 (webhooks.concourse cfg_factory concourse_cfg_name))))
      /\
      In github_org_config (webhooks.github_organisations (snd item))
      /\
      fst (fst hook) = webhooks.org_name github_org_config
      /\
      snd (fst hook)
        = github_api (webhooks.github cfg_factory
                        (webhooks.github_cfg_name github_org_config))
      /\
      webhooks.is_accessible_from
        (webhooks.concourse cfg_factory concourse_cfg_name)
        (webhooks.http_url
           (webhooks.github cfg_factory
              (webhooks.github_cfg_name github_org_config)))
      = true)
    (webhooks._enumerate_required_org_webhooks cfg_factory github_api
       create_url_from_attributes DEFAULT_ORG_HOOK_QUERY_KEY
       whd_deployment_cfg).
Proof.
  apply Forall_forall. intros hook Hin.
  unfold webhooks._enumerate_required_org_webhooks in Hin.
  apply in_flat_map in Hin as [concourse_cfg [Hc Hin]].
  apply in_map_iff in Hc as [cname [<- Hcname]].
  apply in_flat_map in Hin as [org_and_cfg [Ho Hin]].
  unfold webhooks._enumerate_github_org_configs in Ho.
  apply in_flat_map in Ho as [item [Hitem Ho]].
  apply in_map_iff in Ho as [oc [<- Hoc]].
  cbn [fst snd] in Hin.
  destruct (webhooks.is_accessible_from
              (webhooks.concourse cfg_factory cname)
              (webhooks.http_url
                 (webhooks.github cfg_factory (webhooks.github_cfg_name oc))))
    eqn:Hacc; cbn [negb] in Hin; [|destruct Hin].
  destruct Hin as [<- | []]. split; [reflexivity|].
  exists cname, item, oc. repeat split; assumption.
Qed.

Lemma for_webhooks_spec
    (whd_deployment_cfg : webhooks.WebhookDispatcherDeploymentConfig)
    (hooks : list (string * webhooks.GithubApi * string)) :
  forall failed_hooks calls logged,
    webhooks.for_webhooks urlparse_hostname create_or_update_org_hook
      hooks whd_deployment_cfg failed_hooks calls logged
    = (match last_element hooks with
       | None => failed_hooks
       | Some hook =>
           Some (if create_or_update_org_hook
                      (hook_call_for whd_deployment_cfg hook)
                 then 0 else 1)
       end,
       calls ++ map (hook_call_for whd_deployment_cfg) hooks,
       logged ++ map (hook_log urlparse_hostname create_or_update_org_hook
                        whd_deployment_cfg) hooks).
Proof.
  induction hooks as [|[[org api] url] rest IH]; intros fh calls logged.
  - cbn. now rewrite !app_nil_r.
  - cbn [webhooks.for_webhooks].
    change {| webhooks.hook_api := api;
              webhooks.hook_organization_name := org;
              webhooks.hook_events := webhooks.events whd_deployment_cfg;
              webhooks.hook_webhook_url := url;
              webhooks.hook_skip_ssl_validation := false |}
      with (hook_call_for whd_deployment_cfg (org, api, url)).
    rewrite last_element_cons. cbn [map].
    assert (Hlog :
      hook_log urlparse_hostname create_or_update_org_hook
        whd_deployment_cfg (org, api, url)
      = if create_or_update_org_hook
             (hook_call_for whd_deployment_cfg (org, api, url))
        then webhooks.InfoHookSet
               (webhooks._github_api_hostname urlparse_hostname api) org url
        else webhooks.WarningHookError org) by reflexivity.
    rewrite Hlog.
    destruct (create_or_update_org_hook
                (hook_call_for whd_deployment_cfg (org, api, url))) eqn:Hc;
      rewrite IH, <- !app_assoc; cbn [app];
      destruct (last_element rest); rewrite ?Hc; reflexivity.
Qed.

(** X16: [sync_org_webhooks] calls the syncer once for every required
    webhook, in the order of the enumeration, with the dispatcher's events
    and with SSL validation on, whatever calls failed before; and it logs
    one record per webhook before anything else. *)
Theorem sync_org_webhooks_attempts_all
    (whd_deployment_cfg : webhooks.WebhookDispatcherDeploymentConfig) :
  let hooks :=
    webhooks._enumerate_required_org_webhooks cfg_factory github_api
      create_url_from_attributes DEFAULT_ORG_HOOK_QUERY_KEY
      whd_deployment_cfg in
  let run :=
    webhooks.sync_org_webhooks cfg_factory github_api
      create_url_from_attributes DEFAULT_ORG_HOOK_QUERY_KEY
      urlparse_hostname create_or_update_org_hook whd_deployment_cfg in
  webhooks.hook_calls run = map (hook_call_for whd_deployment_cfg) hooks /\
  firstn (List.length hooks) (webhooks.log run)
    = map (hook_log urlparse_hostname create_or_update_org_hook
             whd_deployment_cfg) hooks.
Proof.
  intros hooks run. subst run. unfold webhooks.sync_org_webhooks.
  fold hooks. rewrite for_webhooks_spec. cbn [app].
  set (records := map (hook_log urlparse_hostname create_or_update_org_hook
                         whd_deployment_cfg) hooks).
  assert (Hlen : List.length hooks = List.length records)
    by (subst records; now rewrite length_map).
  destruct (last_element hooks) as [hook|];
    cbn [webhooks.hook_calls webhooks.log]; (split; [reflexivity|]).
  - destruct (negb _); rewrite Hlen.
    + rewrite firstn_app, Nat.sub_diag, firstn_all. cbn. now rewrite app_nil_r.
    + apply firstn_all.
  - rewrite Hlen. apply firstn_all.
Qed.

(** X17: how [sync_org_webhooks] ends. Without any required webhook it
    raises [UnboundLocalError] for [failed_hooks], which is only bound in
    the loop; with at least one it returns, and the closing warning is
    logged exactly when the call for the last webhook failed, since the
    counter is set back in every turn. *)
Theorem sync_org_webhooks_ending
    (whd_deployment_cfg : webhooks.WebhookDispatcherDeploymentConfig) :
  let hooks :=
    webhooks._enumerate_required_org_webhooks cfg_factory github_api
      create_url_from_attributes DEFAULT_ORG_HOOK_QUERY_KEY
      whd_deployment_cfg in
  let run :=
    webhooks.sync_org_webhooks cfg_factory github_api
      create_url_from_attributes DEFAULT_ORG_HOOK_QUERY_KEY
      urlparse_hostname create_or_update_org_hook whd_deployment_cfg in
  match last_element hooks with
  | None =>
      hooks = [] /\
      webhooks.raised run
        = Some (webhooks.UnboundLocalError "failed_hooks")
  | Some hook =>
      webhooks.raised run = None /\
      (In webhooks.WarningSomeFailed (webhooks.log run) <->
       create_or_update_org_hook (hook_call_for whd_deployment_cfg hook)
         = false)
  end.
Proof.
  intros hooks run. subst run. unfold webhooks.sync_org_webhooks.
  fold hooks. rewrite for_webhooks_spec. cbn [app].
  assert (Hbase : ~ In webhooks.WarningSomeFailed
                      (map (hook_log urlparse_hostname
                              create_or_update_org_hook whd_deployment_cfg)
                           hooks)).
  { intro Hin. apply in_map_iff in Hin as [h [Hh _]].
    unfold hook_log in Hh.
    destruct (create_or_update_org_hook _); discriminate Hh. }
  destruct (last_element hooks) as [hook|] eqn:Hlast.
  - cbn [webhooks.raised webhooks.log]. split; [reflexivity|].
    destruct (create_or_update_org_hook
                (hook_call_for whd_deployment_cfg hook)); cbn [Z.eqb negb].
    + split; [intro Hin; contradiction | discriminate].
    + split; [reflexivity|]. intros _. apply in_or_app. right. now left.
  - cbn [webhooks.raised]. split; [|reflexivity].
    destruct hooks as [|h rest]; [reflexivity|].
    rewrite last_element_cons in Hlast.
    destruct (last_element rest); discriminate Hlast.
Qed.

End OrgWebhooks.

Lemma sync_org_webhooks_attempts_all_witness :
  map webhooks.hook_organization_name
    (webhooks.hook_calls
       (webhooks.sync_org_webhooks sample_cfg_factory
          (fun _ => webhooks.GitHub) sample_create_url "whd-name"
          (fun _ => None) sample_syncer sample_whd))
  = ["org-a"; "org-c"].
Proof.
  rewrite (proj1 (sync_org_webhooks_attempts_all sample_cfg_factory
                    (fun _ => webhooks.GitHub) sample_create_url "whd-name"
                    (fun _ => None) sample_syncer sample_whd)).
  reflexivity.
Defined.

Lemma sync_org_webhooks_ending_witness :
  let run :=
    webhooks.sync_org_webhooks sample_cfg_factory
      (fun _ => webhooks.GitHub) sample_create_url "whd-name"
      (fun _ => None) sample_syncer sample_whd in
  webhooks.raised run = None /\
  (In webhooks.WarningSomeFailed (webhooks.log run) <->
   sample_syncer
     (hook_call_for sample_whd
        ("org-c", webhooks.GitHub,
         "https://whd.example/github-webhook?whd-name=whd"))
   = false).
Proof.
  exact (sync_org_webhooks_ending sample_cfg_factory
           (fun _ => webhooks.GitHub) sample_create_url "whd-name"
           (fun _ => None) sample_syncer sample_whd).
Defined.

(** ** [kube/helper.py]: which requests are sent *)

Section KubeHelpers.

Variable State : Type.
Variable api : kube.Api State.
Variable is_not_empty : string -> bool.
Variable is_not_empty_dict : list (string * string) -> bool.
Variable Scalar : Type.
Variable str : Scalar -> string.
Variable b64encode : string -> string.

(** X18: [put_secret] reads the secret and then writes exactly once: it
    replaces the secret when the read found one and creates it when the
    read raised [ApiException] with status 404; with any other status it
    writes nothing and raises that exception. The secret it writes has the
    given keys in the given order, each value encoded, whatever the cluster
    holds. *)
Theorem put_secret_writes_once (name namespace : string)
    (data : list (string * Scalar)) (st : State)
    (sent : list kube.request) :
  is_not_empty name = true ->
  is_not_empty namespace = true ->
  let secret := secret_for str b64encode name data namespace in
  let read := kube.on_read_secret api name namespace st in
  let run :=
    kube.put_secret State api is_not_empty Scalar str b64encode
      name data namespace (st, sent) in
  snd (snd run)
    = sent ++ kube.read_namespaced_secret name namespace
        :: match fst read with
           | inr _ => [kube.replace_namespaced_secret name namespace secret]
           | inl status =>
               if status =? 404
               then [kube.create_namespaced_secret namespace secret]
               else []
           end
  /\
  (forall status,
     fst read = inl status -> status <> 404 ->
     fst run = inl (kube.ApiException status)).
Proof.
  intros Hname Hns secret read run. subst secret read run.
  unfold kube.put_secret, kube.bind, kube.not_empty, kube.none_on_404,
    kube.send, kube.ret, secret_for.
  rewrite Hname, Hns. cbn [fst snd].
  destruct (kube.on_read_secret api name namespace st) as [[status|found] st1].
  - cbn [fst snd]. destruct (status =? 404) eqn:H404.
    + cbn [fst snd].
      destruct (kube.on_write api _ st1) as [[ws|[]] st2]; cbn [fst snd];
        rewrite <- app_assoc; (split; [reflexivity|]);
        intros s' [= <-] Hs; apply Z.eqb_eq in H404; contradiction.
    + cbn [fst snd]. split; [reflexivity|]. now intros s' [= <-] _.
  - cbn [fst snd].
    destruct (kube.on_write api _ st1) as [[ws|[]] st2]; cbn [fst snd];
      rewrite <- app_assoc; (split; [reflexivity|]); intros s' H; discriminate H.
Qed.

(** X19: with a namespace that [not_empty] refuses, whatever the name is,
    the helpers fail before they send anything: [put_secret],
    [create_if_absent], [replace_or_create_service] and its two siblings,
    and [patch_deployment] leave the cluster and the requests as they
    were. *)
Theorem helpers_validate_first (k : kube.kind) (name namespace : string)
    (data : list (string * Scalar)) (body : kube.V1Object)
    (patch : list (string * string)) (w : kube.world State) :
  is_not_empty namespace = false ->
  let failure :=
    (inl (kube.Failure "passed value must not be empty"), w) in
  kube.put_secret State api is_not_empty Scalar str b64encode
    name data namespace w = failure
  /\
  kube.create_if_absent State api is_not_empty namespace w = failure
  /\
  kube.replace_or_create State api is_not_empty k namespace body w
    = failure
  /\
  kube.patch_deployment State api is_not_empty is_not_empty_dict
    name namespace patch w = failure.
Proof.
  intros Hns failure. subst failure.
  unfold kube.put_secret, kube.create_if_absent, kube.replace_or_create,
    kube.patch_deployment, kube.bind, kube.not_empty, kube.raise, kube.ret.
  rewrite Hns.
  repeat split; destruct (is_not_empty name); reflexivity.
Qed.

Lemma for_namespaces_first (items : list kube.V1Namespace)
    (namespace : string) :
  match kube.for_namespaces items namespace with
  | Some ns =>
      exists before after,
        items = before ++ ns :: after /\
        kube.namespace_name ns = namespace /\
        Forall (fun n => kube.namespace_name n <> namespace) before
  | None => Forall (fun n => kube.namespace_name n <> namespace) items
  end.
Proof.
  induction items as [|n rest IH]; cbn [kube.for_namespaces].
  - constructor.
  - destruct (String.eqb (kube.namespace_name n) namespace) eqn:Hn;
      cbn [negb].
    + apply String.eqb_eq in Hn. exists [], rest.
      repeat split; [exact Hn | constructor].
    + apply String.eqb_neq in Hn.
      destruct (kube.for_namespaces rest namespace) as [ns|].
      * destruct IH as [b [a [-> [Hname Hb]]]].
        exists (n :: b), a. repeat split; [exact Hname | now constructor].
      * now constructor.
Qed.

(** X20: when the namespaces can be listed, [get_namespace] gives the first
    listed namespace of the given name and [None] exactly when none is
    listed under it; [create_if_absent] lists once and sends
    [create_namespace] exactly when none is listed under the name, so it
    never creates a namespace that is listed. *)
Theorem create_if_absent_only_when_absent (namespace : string)
    (st st1 : State) (sent : list kube.request)
    (items : list kube.V1Namespace) :
  is_not_empty namespace = true ->
  kube.on_list_namespace api st = (inr items, st1) ->
  let listed :=
    existsb (fun n => String.eqb (kube.namespace_name n) namespace) items in
  (match fst (kube.get_namespace State api namespace (st, sent)) with
   | inr (Some ns) =>
       exists before after,
         items = before ++ ns :: after /\
         kube.namespace_name ns = namespace /\
         Forall (fun n => kube.namespace_name n <> namespace) before
   | inr None => listed = false
   | inl _ => False
   end)
  /\
  snd (snd (kube.create_if_absent State api is_not_empty namespace
              (st, sent)))
    = sent ++ kube.list_namespace
        :: (if listed then []
            else [kube.create_namespace
                    {| kube.namespace_name := namespace |}]).
Proof.
  intros Hns Hlist listed. subst listed.
  pose proof (for_namespaces_first items namespace) as Hfirst.
  assert (Hnone : kube.for_namespaces items namespace = None ->
                  existsb (fun n => String.eqb (kube.namespace_name n)
                                      namespace) items = false).
  { intro Hn. rewrite Hn in Hfirst.
    destruct (existsb _ items) eqn:Hex; [|reflexivity].
    apply existsb_exists in Hex as [n [Hin Heq]].
    apply String.eqb_eq in Heq. rewrite Forall_forall in Hfirst.
    exfalso. exact (Hfirst n Hin Heq). }
  assert (Hsome : forall ns, kube.for_namespaces items namespace = Some ns ->
                  existsb (fun n => String.eqb (kube.namespace_name n)
                                      namespace) items = true).
  { intros ns Hn. rewrite Hn in Hfirst.
    destruct Hfirst as [b [a [-> [Hname _]]]].
    apply existsb_exists. exists ns. split.
    - apply in_or_app. right. now left.
    - now apply String.eqb_eq. }
  split.
  - unfold kube.get_namespace, kube.bind, kube.send, kube.ret.
    cbn [fst snd]. rewrite Hlist. cbn [fst].
    destruct (kube.for_namespaces items namespace) as [ns|];
      [exact Hfirst | now apply Hnone].
  - unfold kube.create_if_absent, kube.create_namespace_helper,
      kube.get_namespace, kube.bind, kube.send, kube.not_empty, kube.ret.
    rewrite Hns. cbn [fst snd]. rewrite Hlist. cbn [fst snd].
    destruct (kube.for_namespaces items namespace) as [ns|] eqn:Hfor.
    + now rewrite (Hsome ns eq_refl).
    + rewrite (Hnone eq_refl). cbn [fst snd].
      destruct (kube.on_create_namespace api _ st1) as [[status|created] st2];
        cbn [fst snd]; now rewrite <- app_assoc.
Qed.

(** X21: [replace_or_create_service] and its siblings for deployments and
    ingresses read the object of the body's name, delete it when the read
    found one, and create the body last. Nothing is created when the
    deletion raises, and nothing is deleted or created when the read raises
    with a status other than 404. *)
Theorem replace_or_create_requests (k : kube.kind) (namespace : string)
    (body : kube.V1Object) (st : State) (sent : list kube.request) :
  is_not_empty namespace = true ->
  is_not_empty (kube.metadata_name body) = true ->
  let name := kube.metadata_name body in
  let read := kube.on_read api k name namespace st in
  let delete :=
    kube.on_write api (kube.delete_namespaced k namespace name) (snd read) in
  snd (snd (kube.replace_or_create State api is_not_empty k namespace body
              (st, sent)))
  = sent ++ kube.read_namespaced k name namespace
      :: match fst read with
         | inr _ =>
             kube.delete_namespaced k namespace name
               :: match fst delete with
                  | inr _ => [kube.create_namespaced k namespace body]
                  | inl _ => []
                  end
         | inl status =>
             if status =? 404
             then [kube.create_namespaced k namespace body]
             else []
         end.
Proof.
  intros Hns Hname name read delete. subst name read delete.
  unfold kube.replace_or_create, kube.get_object, kube.create_object,
    kube.bind, kube.none_on_404, kube.send, kube.not_empty, kube.ret.
  rewrite Hns, Hname. cbn [fst snd].
  destruct (kube.on_read api k (kube.metadata_name body) namespace st)
    as [[status|found] st1]; cbn [fst snd].
  - destruct (status =? 404); cbn [fst snd]; [|reflexivity].
    destruct (kube.on_write api (kube.create_namespaced k namespace body) st1)
      as [[ws|[]] st2]; cbn [fst snd]; now rewrite <- app_assoc.
  - destruct (kube.on_write api
                (kube.delete_namespaced k namespace (kube.metadata_name body))
                st1) as [[ds|[]] st2]; cbn [fst snd].
    + now rewrite <- app_assoc.
    + destruct (kube.on_write api (kube.create_namespaced k namespace body)
                  st2) as [[ws|[]] st3]; cbn [fst snd];
        now rewrite <- !app_assoc.
Qed.

(** X22: [patch_deployment] sends the patch only after it has read the
    deployment: when the read raises with status 404 it fails with the
    message that the deployment does not exist and sends no patch, and the
    patch is the last request whenever it is sent. *)
Theorem patch_deployment_only_existing (name namespace : string)
    (patch : list (string * string)) (st : State)
    (sent : list kube.request) :
  is_not_empty name = true ->
  is_not_empty namespace = true ->
  is_not_empty_dict patch = true ->
  let read := kube.on_read api kube.Deployment name namespace st in
  let run :=
    kube.patch_deployment State api is_not_empty is_not_empty_dict
      name namespace patch (st, sent) in
  snd (snd run)
    = sent ++ kube.read_namespaced kube.Deployment name namespace
        :: match fst read with
           | inr _ => [kube.patch_namespaced_deployment name namespace patch]
           | inl _ => []
           end
  /\
  (fst read = inl 404 ->
   fst run
     = inl (kube.Failure ("Deployment " ++ name ++ " in namespace "
                            ++ namespace ++ " does not exist"))).
Proof.
  intros Hname Hns Hpatch read run. subst read run.
  unfold kube.patch_deployment, kube.get_deployment, kube.get_object,
    kube.bind, kube.not_empty, kube.not_empty_dict, kube.none_on_404,
    kube.send, kube.ret, kube.raise.
  rewrite Hname, Hns, Hpatch. cbn [fst snd].
  destruct (kube.on_read api kube.Deployment name namespace st)
    as [[status|found] st1]; cbn [fst snd].
  - destruct (status =? 404) eqn:H404; cbn [fst snd].
    + split; [reflexivity|]. intros _. reflexivity.
    + split; [reflexivity|]. intros [= ->]. discriminate H404.
  - destruct (kube.on_write api _ st1) as [[ws|[]] st2]; cbn [fst snd];
      rewrite <- app_assoc; (split; [reflexivity|]); intro H; discriminate H.
Qed.

End KubeHelpers.

Lemma put_secret_writes_once_witness :
  let run :=
    kube.put_secret unit (fixed_api false [] None) any_not_empty string
      (fun v => v) (fun s => ("b64:" ++ s)%string)
      "registry" [("user", "me"); ("password", "secret")] "default"
      (tt, []) in
  snd (snd run)
    = [ kube.read_namespaced_secret "registry" "default";
        kube.create_namespaced_secret "default"
          {| kube.secret_name := "registry";
             kube.secret_namespace := "default";
             kube.secret_data :=
               [("user", "b64:me"); ("password", "b64:secret")] |} ]
  /\
  (forall status : Z,
     @inl Z kube.V1Secret 404 = inl status -> status <> 404 ->
     fst run = inl (kube.ApiException status)).
Proof.
  exact (put_secret_writes_once unit (fixed_api false [] None) any_not_empty
           string (fun v => v) (fun s => ("b64:" ++ s)%string)
           "registry" "default" [("user", "me"); ("password", "secret")]
           tt [] eq_refl eq_refl).
Defined.

Lemma helpers_validate_first_witness :
  let failure :=
    (@inl kube.error unit (kube.Failure "passed value must not be empty"),
     (tt, @nil kube.request)) in
  kube.put_secret unit (fixed_api true [] None) any_not_empty string
    (fun v => v) (fun s => s) "registry" [("user", "me")] "" (tt, [])
  = failure
  /\
  kube.create_if_absent unit (fixed_api true [] None) any_not_empty ""
    (tt, [])
  = failure
  /\
  kube.replace_or_create unit (fixed_api true [] None) any_not_empty
    kube.Service "" {| kube.metadata_name := "web"; kube.spec := "" |}
    (tt, [])
  = failure
  /\
  kube.patch_deployment unit (fixed_api true [] None) any_not_empty
    (fun _ => true) "registry" "" [("replicas", "3")] (tt, [])
  = failure.
Proof.
  exact (helpers_validate_first unit (fixed_api true [] None)
           any_not_empty (fun _ => true) string (fun v => v) (fun s => s)
           kube.Service "registry" "" [("user", "me")]
           {| kube.metadata_name := "web"; kube.spec := "" |}
           [("replicas", "3")] (tt, []) eq_refl).
Defined.

Lemma create_if_absent_only_when_absent_witness :
  snd (snd (kube.create_if_absent unit
              (fixed_api false ["default"; "ci"] None) any_not_empty "ci"
              (tt, [])))
  = [kube.list_namespace]
  /\
  snd (snd (kube.create_if_absent unit
              (fixed_api false ["default"; "ci"] None) any_not_empty "dev"
              (tt, [])))
  = [kube.list_namespace;
     kube.create_namespace {| kube.namespace_name := "dev" |}].
Proof.
  split.
  - exact (proj2 (create_if_absent_only_when_absent unit
                    (fixed_api false ["default"; "ci"] None) any_not_empty
                    "ci" tt tt [] _ eq_refl eq_refl)).
  - exact (proj2 (create_if_absent_only_when_absent unit
                    (fixed_api false ["default"; "ci"] None) any_not_empty
                    "dev" tt tt [] _ eq_refl eq_refl)).
Defined.

Lemma replace_or_create_requests_witness :
  let body := {| kube.metadata_name := "web"; kube.spec := "v2" |} in
  snd (snd (kube.replace_or_create unit (fixed_api true [] None)
              any_not_empty kube.Deployment "prod" body (tt, [])))
  = [ kube.read_namespaced kube.Deployment "web" "prod";
      kube.delete_namespaced kube.Deployment "prod" "web";
      kube.create_namespaced kube.Deployment "prod" body ]
  /\
  snd (snd (kube.replace_or_create unit (fixed_api true [] (Some 409))
              any_not_empty kube.Deployment "prod" body (tt, [])))
  = [ kube.read_namespaced kube.Deployment "web" "prod";
      kube.delete_namespaced kube.Deployment "prod" "web" ].
Proof.
  split.
  - exact (replace_or_create_requests unit (fixed_api true [] None)
             any_not_empty kube.Deployment "prod"
             {| kube.metadata_name := "web"; kube.spec := "v2" |} tt []
             eq_refl eq_refl).
  - exact (replace_or_create_requests unit (fixed_api true [] (Some 409))
             any_not_empty kube.Deployment "prod"
             {| kube.metadata_name := "web"; kube.spec := "v2" |} tt []
             eq_refl eq_refl).
Defined.

Lemma patch_deployment_only_existing_witness :
  let run :=
    kube.patch_deployment unit (fixed_api false [] None) any_not_empty
      (fun _ => true) "web" "prod" [("replicas", "3")] (tt, []) in
  snd (snd run) = [kube.read_namespaced kube.Deployment "web" "prod"]
  /\
  fst run
    = inl (kube.Failure "Deployment web in namespace prod does not exist").
Proof.
  destruct (patch_deployment_only_existing unit (fixed_api false [] None)
              any_not_empty (fun _ => true) "web" "prod" [("replicas", "3")]
              tt [] eq_refl eq_refl eq_refl) as [Hsent Hfail].
  split; [exact Hsent | exact (Hfail eq_refl)].
Defined.

(** ** The scan pipeline: archives that break off *)


